(** * finetune.py: a shallow embedding of the fine-tuning launch script

    The script [src/scripts/finetune.py] is embedded function by function.
    Python values are a tagged union, exceptions are an error outcome, calls
    leave a trace of what was entered, and the module namespace (the script's
    globals) is a finite map from names to values that top-level statements
    extend and function bodies read. Everything that lives in an imported
    library is an oracle of the [world]; the theorems hold for every world. *)

From Stdlib Require Import ZArith List Ascii SpecFloat.
From stdpp Require Import gmap strings list fin_maps.

Local Open Scope string_scope.
Local Open Scope Z_scope.
Local Set Warnings "-register-all".

(** ** Values *)

(** The functions the module defines with [def]. The name [finetune] is
    defined twice, at line 120 and at line 144. *)
Inductive func_id : Type :=
| F_safe_save_model_for_hf_trainer
| F_preprocess_data
| F_finetune_l120
| F_build_bnb_config
| F_build_lora_config
| F_finetune_l144.

Inductive value : Type :=
| VNone
| VBool (b : bool)
| VInt (n : Z)
| VFloat (x : spec_float)
| VStr (s : string)
| VTuple (items : list value)
| VList (items : list value)
| VDict (entries : list (string * value))
| VFunc (f : func_id)
  (* a class made by a class statement of this module, before decoration *)
| VClass (name : string) (bases : list value) (body : list (string * value))
  (* an object imported from a library, by qualified name *)
| VExt (qualname : string)
  (* an instance, with the attributes stored on it *)
| VObj (cls : string) (attrs : list (string * value))
  (* an attribute the instance does not store itself: its class resolves it,
     so it is a bound method or a class-level attribute of [self] *)
| VAttr (self : value) (name : string).

Inductive exn : Type :=
| NameError (name : string)
| TypeError (msg : string)
| AttributeError (name : string)
| ValueError (msg : string)
| ImportError (name : string)
| RecursionError
| LibraryError (msg : string).

Inductive outcome (A : Type) : Type :=
| Ok (a : A)
| Raise (e : exn).
Arguments Ok {A} a.
Arguments Raise {A} e.

(** ** The trace of calls *)

Inductive event : Type :=
| EvEnter (f : func_id)          (* the body of a module function starts *)
| EvCall (qualname : string)     (* an imported callable is called *)
| EvMethod (name : string).      (* a method of an object is called *)

(** ** The monad: an outcome and the trace so far *)

Definition M (A : Type) : Type := list event -> outcome A * list event.

Definition ret {A} (a : A) : M A := fun tr => (Ok a, tr).

Definition raise {A} (e : exn) : M A := fun tr => (Raise e, tr).

Definition bind {A B} (m : M A) (k : A -> M B) : M B :=
  fun tr =>
    match m tr with
    | (Ok a, tr') => k a tr'
    | (Raise e, tr') => (Raise e, tr')
    end.

Definition lift {A} (o : outcome A) : M A := fun tr => (o, tr).

Definition log (ev : event) : M unit := fun tr => (Ok tt, (tr ++ [ev])%list).

Notation "x <- m ;; k" := (bind m (fun x => k))
  (at level 100, m at next level, right associativity).
Notation "m ;;; k" := (bind m (fun _ => k))
  (at level 100, right associativity).

Fixpoint mapM {A B} (f : A -> M B) (l : list A) : M (list B) :=
  match l with
  | [] => ret []
  | a :: l' => b <- f a ;; bs <- mapM f l' ;; ret (b :: bs)
  end.

(** ** Names *)

(** The module namespace: the script's globals. *)
Abbreviation namespace := (gmap string value).

(** Names of the [builtins] module that resolve when neither a local nor a
    global binds them. *)
Definition builtin_names : list string :=
  [ "abs"; "all"; "any"; "ascii"; "bin"; "bool"; "breakpoint"; "bytearray";
    "bytes"; "callable"; "chr"; "classmethod"; "compile"; "complex";
    "delattr"; "dict"; "dir"; "divmod"; "enumerate"; "eval"; "exec";
    "filter"; "float"; "format"; "frozenset"; "getattr"; "globals";
    "hasattr"; "hash"; "help"; "hex"; "id"; "input"; "int"; "isinstance";
    "issubclass"; "iter"; "len"; "list"; "locals"; "map"; "max";
    "memoryview"; "min"; "next"; "object"; "oct"; "open"; "ord"; "pow";
    "print"; "property"; "range"; "repr"; "reversed"; "round"; "set";
    "setattr"; "slice"; "sorted"; "staticmethod"; "str"; "sum"; "super";
    "tuple"; "type"; "vars"; "zip"; "__import__";
    "BaseException"; "Exception"; "ArithmeticError"; "AssertionError";
    "AttributeError"; "EOFError"; "ImportError"; "IndexError"; "KeyError";
    "KeyboardInterrupt"; "LookupError"; "MemoryError";
    "ModuleNotFoundError"; "NameError"; "NotImplementedError"; "OSError";
    "OverflowError"; "RecursionError"; "RuntimeError"; "StopIteration";
    "SyntaxError"; "SystemExit"; "TypeError"; "ValueError";
    "ZeroDivisionError"; "Ellipsis"; "NotImplemented" ].

Definition is_builtin (name : string) : bool :=
  existsb (String.eqb name) builtin_names.

(** Reading a name inside a function with no local of that name: the globals,
    then the builtins, else [NameError]. *)
Definition global_ (g : namespace) (name : string) : M value :=
  match g !! name with
  | Some v => ret v
  | None =>
      if is_builtin name then ret (VExt ("builtins." +:+ name))
      else raise (NameError name)
  end.

(** ** Attributes, items and truth *)

Fixpoint assoc {A} (k : string) (l : list (string * A)) : option A :=
  match l with
  | [] => None
  | (k', v) :: l' => if String.eqb k k' then Some v else assoc k l'
  end.

Fixpoint assoc_set {A} (k : string) (v : A) (l : list (string * A))
  : list (string * A) :=
  match l with
  | [] => [(k, v)]
  | (k', v') :: l' =>
      if String.eqb k k' then (k, v) :: l' else (k', v') :: assoc_set k v l'
  end.

Fixpoint assoc_del {A} (k : string) (l : list (string * A))
  : list (string * A) :=
  match l with
  | [] => []
  | (k', v') :: l' =>
      if String.eqb k k' then assoc_del k l' else (k', v') :: assoc_del k l'
  end.

(** [o.name]. An instance answers with the attribute it stores; what it does
    not store is left to its class ([VAttr]). An imported object answers with
    the object of the longer qualified name. Numbers, [None] and plain
    functions have no attribute of the names this script uses. *)
Definition getattr (o : value) (name : string) : M value :=
  match o with
  | VObj _ attrs =>
      match assoc name attrs with
      | Some v => ret v
      | None => ret (VAttr o name)
      end
  | VExt q => ret (VExt (q +:+ "." +:+ name))
  | VStr _ | VTuple _ | VList _ | VDict _ => ret (VAttr o name)
  | VClass _ _ body =>
      match assoc name body with
      | Some v => ret v
      | None => ret (VAttr o name)
      end
  | VNone | VBool _ | VInt _ | VFloat _ | VFunc _ | VAttr _ _ =>
      raise (AttributeError name)
  end.

(** Truth of a value in an [if]. *)
Definition truthy (v : value) : bool :=
  match v with
  | VNone => false
  | VBool b => b
  | VInt n => negb (n =? 0)
  | VFloat x =>
      match x with S754_zero _ => false | _ => true end
  | VStr s => negb (String.eqb s "")
  | VTuple l | VList l => match l with [] => false | _ => true end
  | VDict l => match l with [] => false | _ => true end
  | _ => true
  end.

(** [a == "literal"] for a string literal. *)
Definition eq_str (a : value) (s : string) : bool :=
  match a with
  | VStr s' => String.eqb s' s
  | _ => false
  end.

(** The objects of [typing] that are subscripted in annotations. They have
    [__getitem__] and no [__setitem__]. *)
Definition typing_forms : list string :=
  [ "typing.Optional"; "typing.Union"; "typing.ClassVar"; "typing.Final" ].

Definition is_typing_form (q : string) : bool :=
  existsb (String.eqb q) typing_forms.

(** What a [for] loop or an unpacking assignment draws from a value. *)
Definition iterate (v : value) : M (list value) :=
  match v with
  | VTuple l | VList l => ret l
  | VDict kvs => ret (map (fun kv => VStr (fst kv)) kvs)
  | VStr s =>
      ret (map (fun c => VStr (String c EmptyString)) (String.list_ascii_of_string s))
  | _ => raise (TypeError "object is not iterable")
  end.

(** [a, b, c, d, e = v] *)
Definition unpack5 (v : value) : M (value * value * value * value * value) :=
  l <- iterate v ;;
  match l with
  | [a; b; c; d; e] => ret (a, b, c, d, e)
  | _ => raise (ValueError "wrong number of values to unpack")
  end.

(** [a, b = v] *)
Definition unpack2 (v : value) : M (value * value) :=
  l <- iterate v ;;
  match l with
  | [a; b] => ret (a, b)
  | _ => raise (ValueError "wrong number of values to unpack")
  end.

(** Binding the arguments of a call to the parameters of a [def]. *)
Fixpoint bind_args (params : list string) (args : list value)
    (kwargs : list (string * value)) : M (list value) :=
  match params, args with
  | [], [] =>
      match kwargs with
      | [] => ret []
      | _ => raise (TypeError "got an unexpected keyword argument")
      end
  | [], _ :: _ => raise (TypeError "too many positional arguments")
  | p :: ps, a :: args' =>
      match assoc p kwargs with
      | Some _ => raise (TypeError "got multiple values for argument")
      | None => vs <- bind_args ps args' kwargs ;; ret (a :: vs)
      end
  | p :: ps, [] =>
      match assoc p kwargs with
      | Some v => vs <- bind_args ps [] (assoc_del p kwargs) ;; ret (v :: vs)
      | None => raise (TypeError "missing a required argument")
      end
  end.

Definition type_name (v : value) : string :=
  match v with
  | VNone => "NoneType"
  | VBool _ => "bool"
  | VInt _ => "int"
  | VFloat _ => "float"
  | VStr _ => "str"
  | VTuple _ => "tuple"
  | VList _ => "list"
  | VDict _ => "dict"
  | VFunc _ => "function"
  | VClass _ _ _ => "type"
  | VExt q => q
  | VObj cls _ => cls
  | VAttr _ _ => "method"
  end.

Definition not_callable (v : value) : exn :=
  TypeError ("'" +:+ type_name v +:+ "' object is not callable").

(** ** The world outside the script *)

(** What the imported libraries, the interpreter and the file system answer.
    Nothing is assumed of the answers. *)
Record world : Type := {
  (* can the module, or the name inside it, be imported *)
  lib_import : string -> bool;
  (* calling an imported callable, by qualified name *)
  lib_call : string -> list value -> list (string * value) -> outcome value;
  (* calling a method of an object, or operating on it through a special
     method such as [__getitem__] *)
  lib_method :
    value -> string -> list value -> list (string * value) -> outcome value;
  (* the names of the entries of a directory *)
  listdir : string -> list string
}.

(** Shell-style matching of a name against a pattern: [*] stands for any run
    of characters, [?] for one character, the rest for itself. *)
Fixpoint glob_match (p s : list ascii) : bool :=
  match p with
  | [] => match s with [] => true | _ :: _ => false end
  | c :: p' =>
      if Ascii.eqb c "*"%char then
        (fix star (s : list ascii) : bool :=
           glob_match p' s
           || match s with [] => false | _ :: s' => star s' end) s
      else
        match s with
        | [] => false
        | d :: s' => (Ascii.eqb c "?"%char || Ascii.eqb c d) && glob_match p' s'
        end
  end.

Definition matches (pattern name : string) : bool :=
  glob_match (String.list_ascii_of_string pattern)
             (String.list_ascii_of_string name).

Definition path_obj (p : string) : value :=
  VObj "pathlib.Path" [("path", VStr p)].

(** The entries of directory [d] that match [pattern], as paths. *)
Definition glob (w : world) (d pattern : string) : list value :=
  map (fun n => path_obj (d +:+ "/" +:+ n))
      (filter (fun n => matches pattern n = true) (listdir w d)).

(** Modelled from the spec: the configuration classes [BitsAndBytesConfig]
    and [LoraConfig] belong to imported libraries. A configuration object is
    taken to hold the keyword arguments it is built from, each under its own
    name; a field that is not passed is not stored. *)
Definition config_classes : list string :=
  [ "transformers.BitsAndBytesConfig"; "peft.LoraConfig" ].

Definition is_config_class (q : string) : bool :=
  existsb (String.eqb q) config_classes.

(** Calls into [builtins], [pathlib] and the configuration classes that the
    script depends on; every other imported callable is the world's. *)
Definition lib_model_call (q : string) (args : list value)
    (kwargs : list (string * value)) : option (M value) :=
  if is_config_class q then
    match args with
    | [] => Some (ret (VObj q kwargs))
    | _ => None
    end
  else if String.eqb q "builtins.list" then
    match args, kwargs with
    | [VTuple l], [] | [VList l], [] => Some (ret (VList l))
    | _, _ => None
    end
  else if String.eqb q "pathlib.Path" then
    match args, kwargs with
    | [VStr p], [] => Some (ret (path_obj p))
    | _, _ => None
    end
  else None.

Definition lib_model_method (w : world) (self : value) (name : string)
    (args : list value) (kwargs : list (string * value)) : option (M value) :=
  match self, args, kwargs with
  | VDict kvs, [], [] =>
      if String.eqb name "items"
      then Some (ret (VList (map (fun kv => VTuple [VStr (fst kv); snd kv]) kvs)))
      else None
  | VObj "pathlib.Path" [("path", VStr d)], [VStr pattern], [] =>
      if String.eqb name "glob"
      then Some (ret (VList (glob w d pattern)))
      else None
  | _, _, _ => None
  end.

(** ** The functions of the script *)

(** The locals of the second [finetune] after line 160. *)
Record setup_locals : Type := {
  l_parser : value;
  l_model_args : value;
  l_data_args : value;
  l_training_args : value;
  l_quant_args : value;
  l_qlora_args : value;
  l_bnb_config : value;
  l_peft_config : value;
  l_model : value;
  l_tokenizer : value
}.

Section Functions.
Variable w : world.
Variable g : namespace.
(* a call from inside a function body *)
Variable call : value -> list value -> list (string * value) -> M value.

(** [o.name = v]: the object after the assignment. *)
Definition setattr (o : value) (name : string) (v : value) : M value :=
  match o with
  | VObj cls attrs => ret (VObj cls (assoc_set name v attrs))
  | VClass c bases body => ret (VClass c bases (assoc_set name v body))
  | VExt _ | VAttr _ _ | VFunc _ =>
      _ <- lift (lib_method w o "__setattr__" [VStr name; v] []) ;; ret o
  | _ => raise (AttributeError name)
  end.

(** The dictionary comprehension of line 113, entry by entry. *)
Fixpoint cpu_entries (items : list value) (acc : list (string * value))
  : M (list (string * value)) :=
  match items with
  | [] => ret acc
  | item :: rest =>
      kv <- unpack2 item ;;
      let '(key, value_) := kv in
      cpu_ <- getattr value_ "cpu" ;;
      c <- call cpu_ [] [] ;;
      match key with
      | VStr k => cpu_entries rest (assoc_set k c acc)
      | _ => raise (TypeError "state dict key is not a string")
      end
  end.

(** Lines 106-115. *)
Definition safe_save_model_for_hf_trainer (trainer output_dir : value)
  : M value :=
  (* 111 *)
  model_ <- getattr trainer "model" ;;
  state_dict_ <- getattr model_ "state_dict" ;;
  state_dict <- call state_dict_ [] [] ;;
  (* 112 *)
  args_ <- getattr trainer "args" ;;
  should_save_ <- getattr args_ "should_save" ;;
  cond <- call should_save_ [] [] ;;
  if truthy cond then
    (* 113 *)
    items_ <- getattr state_dict "items" ;;
    its <- call items_ [] [] ;;
    l <- iterate its ;;
    cpu_state_dict <- cpu_entries l [] ;;
    (* 114: del state_dict *)
    (* 115 *)
    save_ <- getattr trainer "_save" ;;
    _ <- call save_ [output_dir] [("state_dict", VDict cpu_state_dict)] ;;
    ret VNone
  else ret VNone.

(** Lines 117-118. *)
Definition preprocess_data (source tokenizer : value) : M value :=
  ret (VDict []).

(** Lines 120-124: the first [finetune]. *)
Definition finetune_l120 : M value :=
  (* 121 *)
  HfArgumentParser_ <- global_ g "HfArgumentParser" ;;
  c1 <- global_ g "ModelArguments" ;;
  c2 <- global_ g "DataArguments" ;;
  c3 <- global_ g "ModelTrainingArguments" ;;
  c4 <- global_ g "QuantizationArguments" ;;
  c5 <- global_ g "QloraArguments" ;;
  parser <- call HfArgumentParser_ [VTuple [c1; c2; c3; c4; c5]] [] ;;
  (* 124 *)
  parse_ <- getattr parser "parse_args_into_dataclasses" ;;
  r <- call parse_ [] [] ;;
  t <- unpack5 r ;;
  let '(model_args, data_args, training_args, quant_args, qlora_args) := t in
  ret VNone.

(** Lines 126-132. *)
Definition build_bnb_config (quant_args : value) : M value :=
  (* 127 *)
  BitsAndBytesConfig_ <- global_ g "BitsAndBytesConfig" ;;
  (* 128 *)
  a1 <- getattr quant_args "load_in_4bit" ;;
  (* 129 *)
  a2 <- getattr quant_args "bnb_4bit_compute_dtype" ;;
  (* 130 *)
  a3 <- getattr quant_args "bnb_4bit_compute_dtype" ;;
  bnb_config <- call BitsAndBytesConfig_ []
    [ ("load_in_4bit", a1);
      ("bnb_4bit_quant_type", a2);
      ("bnb_4bit_compute_dtype", a3) ] ;;
  (* 132 *)
  ret bnb_config.

(** Lines 134-142. *)
Definition build_lora_config (qlora_args : value) : M value :=
  (* 135 *)
  LoraConfig_ <- global_ g "LoraConfig" ;;
  (* 136 *)
  a1 <- getattr qlora_args "lora_alpha" ;;
  (* 137 *)
  a2 <- getattr qlora_args "lora_dropout" ;;
  (* 138 *)
  a3 <- getattr qlora_args "lora_r" ;;
  (* 139 *)
  a4 <- getattr qlora_args "bias" ;;
  (* 140 *)
  a5 <- getattr qlora_args "task_type" ;;
  peft_config <- call LoraConfig_ []
    [ ("lora_alpha", a1);
      ("lora_dropout", a2);
      ("r", a3);
      ("bias", a4);
      ("task_type", a5) ] ;;
  (* 142 *)
  ret peft_config.

(** Lines 145-160 of the second [finetune]. *)
Definition finetune_l144_setup : M setup_locals :=
  (* 145 *)
  HfArgumentParser_ <- global_ g "HfArgumentParser" ;;
  c1 <- global_ g "ModelArguments" ;;
  c2 <- global_ g "DataArguments" ;;
  c3 <- global_ g "ModelTrainingArguments" ;;
  c4 <- global_ g "QuanitzationArguments" ;;
  c5 <- global_ g "QloraArguments" ;;
  parser <- call HfArgumentParser_ [VTuple [c1; c2; c3; c4; c5]] [] ;;
  (* 148 *)
  parse_ <- getattr parser "parse_args_into_dataclasses" ;;
  r <- call parse_ [] [] ;;
  t <- unpack5 r ;;
  let '(model_args, data_args, training_args, quant_args, qlora_args) := t in
  (* 150 *)
  build_bnb_config_ <- global_ g "build_bnb_config" ;;
  bnb_config <- call build_bnb_config_ [] [("quant_args", quant_args)] ;;
  (* 151 *)
  build_lora_config_ <- global_ g "build_lora_config" ;;
  peft_config <- call build_lora_config_ [] [("qlora_args", qlora_args)] ;;
  (* 153 *)
  AutoModelForCausalLM_ <- global_ g "AutoModelForCausalLM" ;;
  from_pretrained_ <- getattr AutoModelForCausalLM_ "from_pretrained" ;;
  model_name <- getattr model_args "model_name" ;;
  model <- call from_pretrained_ [model_name]
    [ ("quantization_config", bnb_config); ("device_map", VStr "auto") ] ;;
  (* 159 *)
  AutoTokenizer_ <- global_ g "AutoTokenizer" ;;
  from_pretrained_ <- getattr AutoTokenizer_ "from_pretrained" ;;
  model_name <- getattr model_args "model_name" ;;
  tokenizer <- call from_pretrained_ [model_name] [] ;;
  (* 160 *)
  eos_token <- getattr tokenizer "eos_token" ;;
  tokenizer <- setattr tokenizer "pad_token" eos_token ;;
  ret {| l_parser := parser;
         l_model_args := model_args;
         l_data_args := data_args;
         l_training_args := training_args;
         l_quant_args := quant_args;
         l_qlora_args := qlora_args;
         l_bnb_config := bnb_config;
         l_peft_config := peft_config;
         l_model := model;
         l_tokenizer := tokenizer |}.

(** Lines 162-165 of the second [finetune]: the two locals they assign,
    [resume_from_checkpoint] and [checkpoints]. *)
Definition checkpoint_discovery (training_args : value)
  : M (value * value) :=
  (* 163 *)
  let resume_from_checkpoint := VBool false in
  (* 164 *)
  list_ <- global_ g "list" ;;
  (* 165 *)
  pathlib_ <- global_ g "pathlib" ;;
  Path_ <- getattr pathlib_ "Path" ;;
  output_dir <- getattr training_args "output_dir" ;;
  p <- call Path_ [output_dir] [] ;;
  glob_ <- getattr p "glob" ;;
  found <- call glob_ [VStr "checkpoint-*"] [] ;;
  checkpoints <- call list_ [found] [] ;;
  ret (resume_from_checkpoint, checkpoints).

(** Lines 144-165: the second [finetune]. The locals are dropped when the
    function returns. *)
Definition finetune_l144 : M value :=
  l <- finetune_l144_setup ;;
  rc <- checkpoint_discovery (l_training_args l) ;;
  ret VNone.

End Functions.

(** Calling a value. A module function takes a frame of the interpreter's
    recursion limit [depth]; an imported callable and a method are answered
    by the library model or by the world. *)
Fixpoint call (w : world) (g : namespace) (depth : nat) (f : value)
    (args : list value) (kwargs : list (string * value)) : M value :=
  match f with
  | VFunc fid =>
      match depth with
      | O => raise RecursionError
      | S d =>
          match fid with
          | F_safe_save_model_for_hf_trainer =>
              ps <- bind_args ["trainer"; "output_dir"] args kwargs ;;
              log (EvEnter fid) ;;;
              safe_save_model_for_hf_trainer (call w g d)
                (nth 0 ps VNone) (nth 1 ps VNone)
          | F_preprocess_data =>
              ps <- bind_args ["source"; "tokenizer"] args kwargs ;;
              log (EvEnter fid) ;;;
              preprocess_data (nth 0 ps VNone) (nth 1 ps VNone)
          | F_finetune_l120 =>
              ps <- bind_args [] args kwargs ;;
              log (EvEnter fid) ;;;
              finetune_l120 g (call w g d)
          | F_build_bnb_config =>
              ps <- bind_args ["quant_args"] args kwargs ;;
              log (EvEnter fid) ;;;
              build_bnb_config g (call w g d) (nth 0 ps VNone)
          | F_build_lora_config =>
              ps <- bind_args ["qlora_args"] args kwargs ;;
              log (EvEnter fid) ;;;
              build_lora_config g (call w g d) (nth 0 ps VNone)
          | F_finetune_l144 =>
              ps <- bind_args [] args kwargs ;;
              log (EvEnter fid) ;;;
              finetune_l144 w g (call w g d)
          end
      end
  | VExt q =>
      log (EvCall q) ;;;
      match lib_model_call q args kwargs with
      | Some m => m
      | None => lift (lib_call w q args kwargs)
      end
  | VAttr self name =>
      log (EvMethod name) ;;;
      match lib_model_method w self name args kwargs with
      | Some m => m
      | None => lift (lib_method w self name args kwargs)
      end
  | VClass _ _ _ | VObj _ _ =>
      log (EvMethod "__call__") ;;;
      lift (lib_method w f "__call__" args kwargs)
  | _ => raise (not_callable f)
  end.

(** ** The top level of the script *)

(** The namespace of a class body: what it assigns and what it annotates. *)
Record class_ns : Type := {
  cattrs : list (string * value);
  cannots : list (string * value)
}.

Definition empty_class : class_ns := {| cattrs := []; cannots := [] |}.

Definition store (ns : class_ns) (name : string) (v : value) : class_ns :=
  {| cattrs := assoc_set name v (cattrs ns); cannots := cannots ns |}.

Definition annotate (ns : class_ns) (name : string) (a : value) : class_ns :=
  {| cattrs := cattrs ns; cannots := assoc_set name a (cannots ns) |}.

Definition class_dict (ns : class_ns) : list (string * value) :=
  (cattrs ns ++ [("__annotations__", VDict (cannots ns))])%list.

Section TopLevel.
Variable w : world.
(* the interpreter's recursion limit *)
Variable depth : nat.

(** Reading a name in a class body: the class namespace, then the globals,
    then the builtins. *)
Definition name_ (ns : class_ns) (g : namespace) (name : string) : M value :=
  match assoc name (cattrs ns) with
  | Some v => ret v
  | None => global_ g name
  end.

(** [o[i]] read. *)
Definition getitem (o i : value) : M value :=
  match o with
  | VNone | VBool _ | VInt _ | VFloat _ | VFunc _ =>
      raise (TypeError ("'" +:+ type_name o +:+ "' object is not subscriptable"))
  | _ => lift (lib_method w o "__getitem__" [i] [])
  end.

(** [o[i] = v]. The special forms of [typing] have no [__setitem__], and
    neither have numbers, strings, tuples and functions. *)
Definition setitem (o i v : value) : M unit :=
  match o with
  | VExt q =>
      if is_typing_form q
      then raise (TypeError
             "'_SpecialForm' object does not support item assignment")
      else _ <- lift (lib_method w o "__setitem__" [i; v] []) ;; ret tt
  | VNone | VBool _ | VInt _ | VFloat _ | VStr _ | VTuple _ | VFunc _ =>
      raise (TypeError
        ("'" +:+ type_name o +:+ "' object does not support item assignment"))
  | _ => _ <- lift (lib_method w o "__setitem__" [i; v] []) ;; ret tt
  end.

(** [field(default=..., metadata=...)] in a class body. *)
Definition field_ (ns : class_ns) (g : namespace) (default : M value)
    (metadata : list (string * value)) : M value :=
  f <- name_ ns g "field" ;;
  d <- default ;;
  call w g depth f [] [("default", d); ("metadata", VDict metadata)].

(** [a[b]] and [a.b] on names, as the annotations use them. *)
Definition subscript (ns : class_ns) (g : namespace) (a b : string)
  : M value :=
  o <- name_ ns g a ;; i <- name_ ns g b ;; getitem o i.

Definition attribute (ns : class_ns) (g : namespace) (a b : string)
  : M value :=
  o <- name_ ns g a ;; getattr o b.

(** Lines 27-35: the body of [ModelArguments]. *)
Definition body_ModelArguments (g : namespace) : M class_ns :=
  let ns := empty_class in
  (* 28 *)
  v <- field_ ns g (ret (VStr "meta-llama/Llama-2-7b-hf"))
         [("help", VStr "The model that you want to train from Huggingface. Defaults to Meta's Llama2 7B-chat and requires a HF login")] ;;
  let ns := store ns "model_name" v in
  a <- subscript ns g "Optional" "str" ;;
  let ns := annotate ns "model_name" a in
  (* 32 *)
  v <- field_ ns g (ret (VStr "airpodmaxsucks-7b-chat"))
         [("help", VStr "The name for your fine-tuned model")] ;;
  let ns := store ns "new_model_name" v in
  a <- subscript ns g "Optional" "str" ;;
  let ns := annotate ns "new_model_name" a in
  ret ns.

(** Lines 38-46: the body of [DataArguments]. *)
Definition body_DataArguments (g : namespace) : M class_ns :=
  let ns := empty_class in
  (* 39 *)
  v <- field_ ns g (ret (VStr "iamtarun/python_code_instructions_18k_alpaca"))
         [("help", VStr "The path to the HF dataset. Defaults to `iamtarun/python_code_instructions_18k_alpaca`")] ;;
  let ns := store ns "hf_data_path" v in
  a <- name_ ns g "str" ;;
  let ns := annotate ns "hf_data_path" a in
  (* 43 *)
  v <- field_ ns g (ret VNone)
         [("help", VStr "The path to your proprietary data")] ;;
  let ns := store ns "personal_data" v in
  a <- subscript ns g "Optional" "str" ;;
  let ns := annotate ns "personal_data" a in
  ret ns.

(** Lines 50-60: the body of [ModelTrainingArguments]. Line 53 is a chained
    assignment, [cache_dir = Optional[str] = field(...)]: the value is
    computed once and assigned to the targets from left to right, first to
    the name [cache_dir], then to the subscription [Optional[str]]. *)
Definition body_ModelTrainingArguments (g : namespace) : M class_ns :=
  let ns := empty_class in
  (* 53 *)
  v <- field_ ns g (ret VNone)
         [("help", VStr "Optional path where you want model checkpoints and final model to be saved")] ;;
  let ns := store ns "cache_dir" v in
  o <- name_ ns g "Optional" ;;
  i <- name_ ns g "str" ;;
  setitem o i v ;;;
  (* 57 *)
  v <- field_ ns g (ret (VInt 512))
         [("help", VStr "Different models have different max lengths but this keeps it at a standard 512 incase you don't specify. Seq might be truncated")] ;;
  let ns := store ns "model_max_length" v in
  a <- name_ ns g "int" ;;
  let ns := annotate ns "model_max_length" a in
  ret ns.

(** Lines 64-80: the body of [QuanitzationArguments]. *)
Definition body_QuanitzationArguments (g : namespace) : M class_ns :=
  let ns := empty_class in
  (* 65 *)
  v <- field_ ns g (ret (VBool true))
         [("help", VStr "Load a model in 4bit")] ;;
  let ns := store ns "load_in_4bit" v in
  a <- name_ ns g "bool" ;;
  let ns := annotate ns "load_in_4bit" a in
  (* 69 *)
  v <- field_ ns g (attribute ns g "torch" "float16")
         [("help", VStr "Compute dtype for 4-bit base models")] ;;
  let ns := store ns "bnb_4bit_compute_dtype" v in
  a <- attribute ns g "torch" "dtype" ;;
  let ns := annotate ns "bnb_4bit_compute_dtype" a in
  (* 73 *)
  v <- field_ ns g (ret (VStr "nf4"))
         [("help", VStr "Quantization type (fp4 or nf4)")] ;;
  let ns := store ns "bnb_4bit_quant_type" v in
  a <- subscript ns g "Optional" "str" ;;
  let ns := annotate ns "bnb_4bit_quant_type" a in
  (* 77 *)
  v <- field_ ns g (ret (VBool false))
         [("help", VStr "Activate nested quantization for 4-bit base models (double quantization)")] ;;
  let ns := store ns "use_nested_quant" v in
  a <- subscript ns g "Optional" "bool" ;;
  let ns := annotate ns "use_nested_quant" a in
  ret ns.

(** The binary64 number that the literal [0.1] denotes:
    3602879701896397 / 2^55. *)
Definition float_0_1 : spec_float :=
  S754_finite false 3602879701896397%positive (-55).

(** Lines 84-104: the body of [QloraArguments]. *)
Definition body_QloraArguments (g : namespace) : M class_ns :=
  let ns := empty_class in
  (* 85 *)
  v <- field_ ns g (ret (VInt 64))
         [("help", VStr "LoRA attention dimension")] ;;
  let ns := store ns "lora_r" v in
  a <- subscript ns g "Optional" "int" ;;
  let ns := annotate ns "lora_r" a in
  (* 89 *)
  v <- field_ ns g (ret (VInt 16))
         [("help", VStr "Alpha parameter for LoRA scaling")] ;;
  let ns := store ns "lora_alpha" v in
  a <- subscript ns g "Optional" "int" ;;
  let ns := annotate ns "lora_alpha" a in
  (* 93 *)
  v <- field_ ns g (ret (VFloat float_0_1))
         [("help", VStr "Dropout probability for LoRA layers")] ;;
  let ns := store ns "lora_dropout" v in
  a <- subscript ns g "Optional" "float" ;;
  let ns := annotate ns "lora_dropout" a in
  (* 97 *)
  v <- field_ ns g (ret (VStr "none")) [] ;;
  let ns := store ns "bias" v in
  a <- subscript ns g "Optional" "str" ;;
  let ns := annotate ns "bias" a in
  (* 101 *)
  v <- field_ ns g (ret (VStr "CAUSAL_LM")) [] ;;
  let ns := store ns "task_type" v in
  a <- subscript ns g "Optional" "str" ;;
  let ns := annotate ns "task_type" a in
  ret ns.

(** A decorated class statement: the decorator and the bases are read, the
    body runs, the class is made, the decorator is applied to it and the
    result is bound to the class name. *)
Definition class_def (decorator name : string) (bases : list string)
    (body : namespace -> M class_ns) (g : namespace) : M namespace :=
  dec <- global_ g decorator ;;
  bs <- mapM (global_ g) bases ;;
  ns <- body g ;;
  c <- call w g depth dec [VClass name bs (class_dict ns)] [] ;;
  ret (<[name := c]> g).

(** [import m] *)
Definition import_ (m : string) (g : namespace) : M namespace :=
  if lib_import w m then ret (<[m := VExt m]> g)
  else raise (ImportError m).

Fixpoint bind_imported (m : string) (names : list string) (g : namespace)
  : M namespace :=
  match names with
  | [] => ret g
  | n :: rest =>
      if lib_import w (m +:+ "." +:+ n)
      then bind_imported m rest (<[n := VExt (m +:+ "." +:+ n)]> g)
      else raise (ImportError (m +:+ "." +:+ n))
  end.

(** [from m import names] *)
Definition from_import (m : string) (names : list string) (g : namespace)
  : M namespace :=
  if lib_import w m then bind_imported m names g
  else raise (ImportError m).

(** A [def] statement: the annotations of the signature are read, then the
    function is bound to its name. *)
Definition def_ (name : string) (fid : func_id) (annotations : list string)
    (g : namespace) : M namespace :=
  _ <- mapM (global_ g) annotations ;;
  ret (<[name := VFunc fid]> g).

(** Line 23: [logger = logging.getLogger(__name__)]. *)
Definition stmt_l23 (g : namespace) : M namespace :=
  logging_ <- global_ g "logging" ;;
  getLogger_ <- getattr logging_ "getLogger" ;;
  n <- global_ g "__name__" ;;
  logger <- call w g depth getLogger_ [n] [] ;;
  ret (<["logger" := logger]> g).

(** Line 24: [logger.setLevel(logging.INFO)]. *)
Definition stmt_l24 (g : namespace) : M namespace :=
  logger_ <- global_ g "logger" ;;
  setLevel_ <- getattr logger_ "setLevel" ;;
  logging_ <- global_ g "logging" ;;
  info <- getattr logging_ "INFO" ;;
  _ <- call w g depth setLevel_ [info] [] ;;
  ret g.

(** Lines 169-170: [if __name__ == "__main__": finetune()]. *)
Definition stmt_l169 (g : namespace) : M namespace :=
  n <- global_ g "__name__" ;;
  if eq_str n "__main__" then
    finetune_ <- global_ g "finetune" ;;
    _ <- call w g depth finetune_ [] [] ;;
    ret g
  else ret g.

(** Lines 1-21. *)
Definition import_stmts : list (namespace -> M namespace) :=
  [ from_import "dataclasses" ["dataclass"; "field"];
    from_import "typing" ["Optional"; "Dict"];
    import_ "logging";
    import_ "nvidia_smi";
    import_ "torch";
    from_import "datasets" ["load_dataset"];
    from_import "transformers"
      [ "AutoModelForCausalLM"; "AutoTokenizer"; "PreTrainedTokenizer";
        "BitsAndBytesConfig"; "HfArgumentParser"; "Trainer";
        "TrainingArguments" ];
    from_import "peft" ["LoraConfig"; "AutoPeftModelForCausalLM"];
    from_import "trl" ["SFTTrainer"] ].

(** Lines 26-104. *)
Definition class_ModelArguments : namespace -> M namespace :=
  class_def "dataclass" "ModelArguments" [] body_ModelArguments.

Definition class_DataArguments : namespace -> M namespace :=
  class_def "dataclass" "DataArguments" [] body_DataArguments.

Definition class_ModelTrainingArguments : namespace -> M namespace :=
  class_def "dataclass" "ModelTrainingArguments" ["TrainingArguments"]
    body_ModelTrainingArguments.

Definition class_QuanitzationArguments : namespace -> M namespace :=
  class_def "dataclass" "QuanitzationArguments" ["BitsAndBytesConfig"]
    body_QuanitzationArguments.

Definition class_QloraArguments : namespace -> M namespace :=
  class_def "dataclass" "QloraArguments" ["LoraConfig"]
    body_QloraArguments.

(** Lines 106-165: the six [def] statements, in source order. *)
Definition def_stmts : list (namespace -> M namespace) :=
  [ (* 106 *)
    def_ "safe_save_model_for_hf_trainer" F_safe_save_model_for_hf_trainer
      ["Trainer"; "str"];
    (* 117 *)
    def_ "preprocess_data" F_preprocess_data ["PreTrainedTokenizer"; "Dict"];
    (* 120 *)
    def_ "finetune" F_finetune_l120 [];
    (* 126 *)
    def_ "build_bnb_config" F_build_bnb_config ["BitsAndBytesConfig"];
    (* 134 *)
    def_ "build_lora_config" F_build_lora_config ["LoraConfig"];
    (* 144 *)
    def_ "finetune" F_finetune_l144 [] ].

(** The statements of the module, first to last. *)
Definition module_stmts : list (namespace -> M namespace) :=
  (import_stmts
   ++ [ stmt_l23; stmt_l24;
        class_ModelArguments; class_DataArguments;
        class_ModelTrainingArguments; class_QuanitzationArguments;
        class_QloraArguments ]
   ++ def_stmts
   ++ [ stmt_l169 ])%list.

(** Statements run in order; the first exception ends the run. *)
Fixpoint exec (stmts : list (namespace -> M namespace)) (g : namespace)
  : M namespace :=
  match stmts with
  | [] => ret g
  | s :: rest => g' <- s g ;; exec rest g'
  end.

End TopLevel.

(** The globals of a module before its first statement. The script run as a
    program has [__name__] equal to "__main__". *)
Definition initial_globals (name : string) : namespace :=
  <["__name__" := VStr name]> (<["__doc__" := VNone]> ∅).

Definition run_module (w : world) (depth : nat) (name : string) : M namespace :=
  exec (module_stmts w depth) (initial_globals name).

(** ** The records the functions receive *)

(** Lines 62-80. The fields hold values: the annotations of a dataclass are
    not enforced. *)
Record QuanitzationArguments : Type := {
  load_in_4bit : value;
  bnb_4bit_compute_dtype : value;
  bnb_4bit_quant_type : value;
  use_nested_quant : value
}.

Definition quant_obj (q : QuanitzationArguments) : value :=
  VObj "QuanitzationArguments"
    [ ("load_in_4bit", load_in_4bit q);
      ("bnb_4bit_compute_dtype", bnb_4bit_compute_dtype q);
      ("bnb_4bit_quant_type", bnb_4bit_quant_type q);
      ("use_nested_quant", use_nested_quant q) ].

(** The defaults declared at lines 65-80. *)
Definition default_quant : QuanitzationArguments :=
  {| load_in_4bit := VBool true;
     bnb_4bit_compute_dtype := VExt "torch.float16";
     bnb_4bit_quant_type := VStr "nf4";
     use_nested_quant := VBool false |}.

(** Lines 82-104. *)
Record QloraArguments : Type := {
  lora_r : value;
  lora_alpha : value;
  lora_dropout : value;
  bias : value;
  task_type : value
}.

Definition qlora_obj (a : QloraArguments) : value :=
  VObj "QloraArguments"
    [ ("lora_r", lora_r a);
      ("lora_alpha", lora_alpha a);
      ("lora_dropout", lora_dropout a);
      ("bias", bias a);
      ("task_type", task_type a) ].

(** The defaults declared at lines 85-104. *)
Definition default_qlora : QloraArguments :=
  {| lora_r := VInt 64;
     lora_alpha := VInt 16;
     lora_dropout := VFloat float_0_1;
     bias := VStr "none";
     task_type := VStr "CAUSAL_LM" |}.

(** Modelled from the spec: the trainer class of the library is not part of
    the script. A trainer has a model and an argument object; [should_save]
    of the argument object is not a method but a boolean attribute. *)
Record Trainer : Type := {
  trainer_model : value;
  trainer_should_save : bool;
  trainer_output_dir : value
}.

Definition trainer_obj (t : Trainer) : value :=
  VObj "transformers.Trainer"
    [ ("model", trainer_model t);
      ("args",
       VObj "transformers.TrainingArguments"
         [ ("should_save", VBool (trainer_should_save t));
           ("output_dir", trainer_output_dir t) ]) ].

(** A field of a configuration object, if it stores one of that name. *)
Definition field_of (cfg : value) (name : string) : option value :=
  match cfg with
  | VObj _ attrs => assoc name attrs
  | _ => None
  end.

(** ** A sample world and sample namespaces *)

Definition sample_listing : list string :=
  [ "checkpoint-500"; "runs"; "checkpoint-1000"; "README.md" ].

Definition sample_training_args : value :=
  VObj "ModelTrainingArguments" [("output_dir", VStr "out")].

Definition sample_parsed : value :=
  VTuple
    [ VObj "ModelArguments"
        [ ("model_name", VStr "meta-llama/Llama-2-7b-hf");
          ("new_model_name", VStr "airpodmaxsucks-7b-chat") ];
      VObj "DataArguments"
        [ ("hf_data_path", VStr "iamtarun/python_code_instructions_18k_alpaca");
          ("personal_data", VNone) ];
      sample_training_args;
      quant_obj default_quant;
      qlora_obj default_qlora ].

(** Every import succeeds, the parser returns the defaults, every other
    library call returns a fresh object, and the output directory [out]
    holds two checkpoints and two other entries. *)
Definition sample_world : world :=
  {| lib_import := fun _ => true;
     lib_call := fun q args kwargs =>
       if String.eqb q "transformers.AutoTokenizer.from_pretrained"
       then Ok (VObj "LlamaTokenizer" [("eos_token", VStr "</s>")])
       else Ok (VObj q []);
     lib_method := fun self name args kwargs =>
       if String.eqb name "parse_args_into_dataclasses" then Ok sample_parsed
       else Ok VNone;
     listdir := fun d =>
       if String.eqb d "out" then sample_listing else [] |}.

(** The same world with another file system. *)
Definition with_listdir (ls : string -> list string) (w : world) : world :=
  {| lib_import := lib_import w;
     lib_call := lib_call w;
     lib_method := lib_method w;
     listdir := ls |}.

(** The statements of the module without the class statement of lines 48-60,
    which cannot complete. *)
Definition repaired_stmts (w : world) (depth : nat)
  : list (namespace -> M namespace) :=
  (import_stmts w
   ++ [ stmt_l23 w depth; stmt_l24 w depth;
        class_ModelArguments w depth; class_DataArguments w depth;
        class_QuanitzationArguments w depth; class_QloraArguments w depth ]
   ++ def_stmts)%list.

(** The namespace those statements leave in the sample world, with the class
    name of lines 48-60 bound to a class: what the globals would be at line
    169 if line 53 did not stop the script. *)
Definition sample_globals : namespace :=
  match exec (repaired_stmts sample_world 10) (initial_globals "__main__") [] with
  | (Ok g, _) =>
      <["ModelTrainingArguments" :=
          VClass "ModelTrainingArguments"
            [VExt "transformers.TrainingArguments"] []]> g
  | (Raise _, _) => ∅
  end.

(** The sample namespace with [import pathlib] added to the script. *)
Definition sample_globals_pathlib : namespace :=
  <["pathlib" := VExt "pathlib"]> sample_globals.

(** The sample namespace after the [def] statements have run on it. *)
Definition sample_after_defs : namespace :=
  match exec def_stmts sample_globals [] with
  | (Ok g, _) => g
  | (Raise _, _) => ∅
  end.

(** ** Where the functions of the module can be reached from *)

(** A value that holds no function of this module. *)
Fixpoint func_free (v : value) : bool :=
  match v with
  | VFunc _ => false
  | VTuple l | VList l => forallb func_free l
  | VDict kvs => forallb (fun kv => func_free (snd kv)) kvs
  | VClass _ bases body =>
      forallb func_free bases && forallb (fun kv => func_free (snd kv)) body
  | VObj _ attrs => forallb (fun kv => func_free (snd kv)) attrs
  | VAttr self _ => func_free self
  | _ => true
  end.

(** The name a [def] statement binds its function to. *)
Definition def_name (f : func_id) : string :=
  match f with
  | F_safe_save_model_for_hf_trainer => "safe_save_model_for_hf_trainer"
  | F_preprocess_data => "preprocess_data"
  | F_finetune_l120 => "finetune"
  | F_build_bnb_config => "build_bnb_config"
  | F_build_lora_config => "build_lora_config"
  | F_finetune_l144 => "finetune"
  end.

(** A namespace in which the functions of the module are bound, if at all,
    under the names of their [def] statements, and nowhere else. *)
Definition binds_well (name : string) (v : value) : Prop :=
  func_free v = true \/ exists fid, v = VFunc fid /\ def_name fid = name.

Definition module_like (g : namespace) : Prop :=
  forall name v, g !! name = Some v -> binds_well name v.

(** A world whose libraries never hand out a function of this module. *)
Definition lib_closed (w : world) : Prop :=
  (forall q args kwargs v,
      lib_call w q args kwargs = Ok v -> func_free v = true)
  /\ (forall self name args kwargs v,
      lib_method w self name args kwargs = Ok v -> func_free v = true).

(** A call of [glob] on a path, the only call that reads the file system. *)
Definition is_glob_call (f : value) (args : list value)
    (kwargs : list (string * value)) : bool :=
  match kwargs with
  | [] =>
      match args with
      | [VStr _] =>
          match f with
          | VAttr (VObj "pathlib.Path" [("path", VStr _)]) name =>
              String.eqb name "glob"
          | _ => false
          end
      | _ => false
      end
  | _ => false
  end.

(** The functions a trace enters. *)
Fixpoint entered (evs : list event) : list func_id :=
  match evs with
  | [] => []
  | EvEnter f :: evs' => f :: entered evs'
  | _ :: evs' => entered evs'
  end.

(** A computation that extends the trace by entries into [allowed] functions
    only, and whose result, if it returns one, satisfies [P]. *)
Definition confined {A} (allowed : list func_id) (P : A -> Prop) (m : M A)
  : Prop :=
  forall tr r tr', m tr = (r, tr') ->
    exists evs, tr' = (tr ++ evs)%list
      /\ (forall f, In f (entered evs) -> In f allowed)
      /\ (forall a, r = Ok a -> P a).

(** ** Notions the properties are stated with *)

(** Values, and keyword arguments, that hold no function of this module. *)
Definition ffs (l : list value) : Prop := forallb func_free l = true.

Definition ffk (l : list (string * value)) : Prop :=
  forallb (fun kv => func_free (snd kv)) l = true.

(** Whether a run returned. *)
Definition is_ok {A} (r : outcome A) : bool :=
  match r with Ok _ => true | Raise _ => false end.

(** The locals of lines 163-165 are dropped: what is left of a run of
    [checkpoint_discovery] once the function has returned. *)
Definition dropped {A} (x : outcome A * list event) : outcome value * list event :=
  match x with
  | (Ok _, tr) => (Ok VNone, tr)
  | (Raise e, tr) => (Raise e, tr)
  end.

(** Two ways of calling that agree on every call but [glob]. *)
Definition agree (c1 c2 : value -> list value -> list (string * value) -> M value)
  : Prop :=
  forall f args kwargs tr,
    is_glob_call f args kwargs = false ->
    c1 f args kwargs tr = c2 f args kwargs tr.

(** A statement that, when it completes, changes the binding of no name
    outside [names]. *)
Definition frames (names : list string) (s : namespace -> M namespace) : Prop :=
  forall g tr g' tr' n,
    s g tr = (Ok g', tr') -> ~ In n names -> g' !! n = g !! n.

(** The names the statements of the module bind. *)
Definition module_bound_names : list string :=
  [ "dataclass"; "field"; "Optional"; "Dict"; "logging"; "nvidia_smi";
    "torch"; "load_dataset"; "AutoModelForCausalLM"; "AutoTokenizer";
    "PreTrainedTokenizer"; "BitsAndBytesConfig"; "HfArgumentParser";
    "Trainer"; "TrainingArguments"; "LoraConfig";
    "AutoPeftModelForCausalLM"; "SFTTrainer"; "logger"; "ModelArguments";
    "DataArguments"; "ModelTrainingArguments"; "QuanitzationArguments";
    "QloraArguments"; "safe_save_model_for_hf_trainer"; "preprocess_data";
    "finetune"; "build_bnb_config"; "build_lora_config" ].

(** ** What lines 1-21 import *)

(** The qualified name of [n] inside module [m]. *)
Definition qualified (m n : string) : string := m +:+ "." +:+ n.

(** Everything the import statements need to find, in the order they ask
    for it: each module, then the names taken from it. *)
Definition required_imports : list string :=
  [ "dataclasses"; "dataclasses.dataclass"; "dataclasses.field";
    "typing"; "typing.Optional"; "typing.Dict";
    "logging"; "nvidia_smi"; "torch";
    "datasets"; "datasets.load_dataset";
    "transformers"; "transformers.AutoModelForCausalLM";
    "transformers.AutoTokenizer"; "transformers.PreTrainedTokenizer";
    "transformers.BitsAndBytesConfig"; "transformers.HfArgumentParser";
    "transformers.Trainer"; "transformers.TrainingArguments";
    "peft"; "peft.LoraConfig"; "peft.AutoPeftModelForCausalLM";
    "trl"; "trl.SFTTrainer" ].

(** The names lines 1-21 bind, each with the library object it denotes. *)
Definition imported_bindings : list (string * string) :=
  [ ("dataclass", "dataclasses.dataclass"); ("field", "dataclasses.field");
    ("Optional", "typing.Optional"); ("Dict", "typing.Dict");
    ("logging", "logging"); ("nvidia_smi", "nvidia_smi"); ("torch", "torch");
    ("load_dataset", "datasets.load_dataset");
    ("AutoModelForCausalLM", "transformers.AutoModelForCausalLM");
    ("AutoTokenizer", "transformers.AutoTokenizer");
    ("PreTrainedTokenizer", "transformers.PreTrainedTokenizer");
    ("BitsAndBytesConfig", "transformers.BitsAndBytesConfig");
    ("HfArgumentParser", "transformers.HfArgumentParser");
    ("Trainer", "transformers.Trainer");
    ("TrainingArguments", "transformers.TrainingArguments");
    ("LoraConfig", "peft.LoraConfig");
    ("AutoPeftModelForCausalLM", "peft.AutoPeftModelForCausalLM");
    ("SFTTrainer", "trl.SFTTrainer") ].

(** The namespace after [from m import names]. *)
Definition bind_names (m : string) (names : list string) (g : namespace)
  : namespace :=
  fold_left (fun g n => <[n := VExt (qualified m n)]> g) names g.

(** The namespace after lines 1-21, when every import succeeds. *)
Definition after_imports (g : namespace) : namespace :=
  bind_names "trl" ["SFTTrainer"]
    (bind_names "peft" ["LoraConfig"; "AutoPeftModelForCausalLM"]
    (bind_names "transformers"
       [ "AutoModelForCausalLM"; "AutoTokenizer"; "PreTrainedTokenizer";
         "BitsAndBytesConfig"; "HfArgumentParser"; "Trainer";
         "TrainingArguments" ]
    (bind_names "datasets" ["load_dataset"]
    (<["torch" := VExt "torch"]>
    (<["nvidia_smi" := VExt "nvidia_smi"]>
    (<["logging" := VExt "logging"]>
    (bind_names "typing" ["Optional"; "Dict"]
    (bind_names "dataclasses" ["dataclass"; "field"] g)))))))).

(** How a run of import statements [stmts] from [g] ends, given what can be
    imported: at the first of [req] that cannot, with the trace untouched,
    or, when all of [req] can, in the namespace [gf]. *)
Definition import_run (importable : string -> bool) (req : list string)
    (stmts : list (namespace -> M namespace)) (g gf : namespace)
    (tr : list event) : Prop :=
  (exists q, In q req /\ importable q = false
     /\ exec stmts g tr = (Raise (ImportError q), tr))
  \/ ((forall q, In q req -> importable q = true)
      /\ exec stmts g tr = (Ok gf, tr)).

(** The world [w] with one module, or one name of a module, not installed. *)
Definition without_import (m : string) (w : world) : world :=
  {| lib_import := fun q => negb (String.eqb q m) && lib_import w q;
     lib_call := lib_call w;
     lib_method := lib_method w;
     listdir := listdir w |}.

(** ** Statements that keep the functions under their names *)

(** A class namespace that holds no function of the module. *)
Definition clean_class (ns : class_ns) : Prop :=
  ffk (cattrs ns) /\ ffk (cannots ns).

(** A statement that takes a [module_like] namespace to a [module_like]
    namespace and enters [allowed] functions only. *)
Definition keeps (allowed : list func_id) (s : namespace -> M namespace)
  : Prop :=
  forall g, module_like g -> confined allowed module_like (s g).

(** The functions a statement of the module can enter: the two definitions
    of [finetune] and the two configuration builders. *)
Definition reachable_functions : list func_id :=
  [ F_finetune_l120; F_finetune_l144; F_build_bnb_config;
    F_build_lora_config ].

(** ** Objects whose class provides a method *)

(** A value that does not store [name] itself, so that [v.name] is resolved
    by its class: an object without the attribute, a string, a tuple or a
    list. *)
Definition has_method (name : string) (v : value) : bool :=
  match v with
  | VObj _ attrs =>
      match assoc name attrs with None => true | Some _ => false end
  | VStr _ | VTuple _ | VList _ => true
  | _ => false
  end.

(** A trainer-like object: it stores a model and an argument object, and
    leaves [_save] to its class. *)
Definition duck_trainer (cls : string) (model args : value) : value :=
  VObj cls [("model", model); ("args", args)].

(** The entry of a state dictionary as [items()] yields it. *)
Definition item_of (kv : string * value) : value :=
  VTuple [VStr (fst kv); snd kv].

(** A world for a trainer whose [should_save()] is a method that returns
    [True]: the model has two tensors on the GPU and [cpu()] answers with a
    tensor on the host. *)
Definition mock_tensor (device : string) : value :=
  VObj "torch.Tensor" [("device", VStr device)].

Definition mock_state_dict : list (string * value) :=
  [ ("layer.weight", mock_tensor "cuda:0"); ("layer.bias", mock_tensor "cuda:0") ].

Definition mock_world (should_save : bool) : world :=
  {| lib_import := fun _ => true;
     lib_call := fun q args kwargs => Ok VNone;
     lib_method := fun self name args kwargs =>
       if String.eqb name "state_dict" then Ok (VDict mock_state_dict)
       else if String.eqb name "should_save" then Ok (VBool should_save)
       else if String.eqb name "cpu" then Ok (mock_tensor "cpu")
       else Ok VNone;
     listdir := fun _ => [] |}.

Definition mock_trainer : value :=
  duck_trainer "MockTrainer" (VObj "Module" []) (VObj "Args" []).

(** The locals of the second [finetune] after line 160 in the sample
    world. *)
Definition sample_setup : outcome setup_locals * list event :=
  finetune_l144_setup sample_world sample_globals
    (call sample_world sample_globals 1) [].

Definition sample_locals : setup_locals :=
  match fst sample_setup with
  | Ok l => l
  | Raise _ =>
      {| l_parser := VNone; l_model_args := VNone; l_data_args := VNone;
         l_training_args := VNone; l_quant_args := VNone;
         l_qlora_args := VNone; l_bnb_config := VNone;
         l_peft_config := VNone; l_model := VNone; l_tokenizer := VNone |}
  end.

(** ** Namespaces in which the training-arguments class is missing *)

(** [ModelTrainingArguments] is unbound, and [Optional] is unbound or what
    line 2 imports. *)
Definition class_missing (g : namespace) : Prop :=
  g !! "ModelTrainingArguments" = None
  /\ (g !! "Optional" = None
      \/ g !! "Optional" = Some (VExt "typing.Optional")).

(** A statement that keeps it so whenever it completes. *)
Definition keeps_missing (s : namespace -> M namespace) : Prop :=
  forall g tr g' tr',
    class_missing g -> s g tr = (Ok g', tr') -> class_missing g'.

(** The run of the script's statements in the sample world without the
    class statement of lines 48-60, and the namespace it leaves. *)
Definition sample_plain_run : outcome namespace * list event :=
  exec (repaired_stmts sample_world 10) (initial_globals "__main__") [].

Definition sample_after_defs_plain : namespace :=
  match fst sample_plain_run with
  | Ok g => g
  | Raise _ => ∅
  end.

(** * Properties *)

(** ** Running the monad *)

Lemma bind_ret {A B} (a : A) (k : A -> M B) (tr : list event) :
  bind (ret a) k tr = k a tr.
Proof. reflexivity. Qed.

Lemma bind_raise {A B} (e : exn) (k : A -> M B) (tr : list event) :
  bind (raise e) k tr = (Raise e, tr).
Proof. reflexivity. Qed.

Lemma bind_ok {A B} (m : M A) (k : A -> M B) tr a tr1 :
  m tr = (Ok a, tr1) -> bind m k tr = k a tr1.
Proof. intros H. unfold bind. now rewrite H. Qed.

Lemma bind_fail {A B} (m : M A) (k : A -> M B) tr e tr1 :
  m tr = (Raise e, tr1) -> bind m k tr = (Raise e, tr1).
Proof. intros H. unfold bind. now rewrite H. Qed.

Lemma bind_assoc {A B C} (m : M A) (k : A -> M B) (h : B -> M C) tr :
  bind (bind m k) h tr = bind m (fun a => bind (k a) h) tr.
Proof. unfold bind. destruct (m tr) as [[a|e] tr1]; reflexivity. Qed.

Lemma bind_cong {A B} (m : M A) (k k' : A -> M B) tr :
  (forall a tr1, k a tr1 = k' a tr1) -> bind m k tr = bind m k' tr.
Proof.
  intros H. unfold bind. destruct (m tr) as [[a|e] tr1]; [apply H | reflexivity].
Qed.

(** A continuation that always raises makes the whole computation raise. *)
Lemma bind_always_raises {A B} (m : M A) (k : A -> M B) :
  (forall a tr, exists e tr', k a tr = (Raise e, tr')) ->
  forall tr, exists e tr', bind m k tr = (Raise e, tr').
Proof.
  intros Hk tr. unfold bind.
  destruct (m tr) as [[a|e] tr1]; [apply Hk | eauto].
Qed.

(** ** Unfolding a call *)

Lemma call_ext w g d q args kwargs :
  call w g d (VExt q) args kwargs =
  (log (EvCall q) ;;;
   match lib_model_call q args kwargs with
   | Some m => m
   | None => lift (lib_call w q args kwargs)
   end).
Proof. destruct d; reflexivity. Qed.

Lemma call_attr w g d self name args kwargs :
  call w g d (VAttr self name) args kwargs =
  (log (EvMethod name) ;;;
   match lib_model_method w self name args kwargs with
   | Some m => m
   | None => lift (lib_method w self name args kwargs)
   end).
Proof. destruct d; reflexivity. Qed.

Lemma call_bnb w g d args kwargs :
  call w g (S d) (VFunc F_build_bnb_config) args kwargs =
  (ps <- bind_args ["quant_args"] args kwargs ;;
   log (EvEnter F_build_bnb_config) ;;;
   build_bnb_config g (call w g d) (nth 0 ps VNone)).
Proof. reflexivity. Qed.

Lemma call_lora w g d args kwargs :
  call w g (S d) (VFunc F_build_lora_config) args kwargs =
  (ps <- bind_args ["qlora_args"] args kwargs ;;
   log (EvEnter F_build_lora_config) ;;;
   build_lora_config g (call w g d) (nth 0 ps VNone)).
Proof. reflexivity. Qed.

Lemma call_l120 w g d args kwargs :
  call w g (S d) (VFunc F_finetune_l120) args kwargs =
  (ps <- bind_args [] args kwargs ;;
   log (EvEnter F_finetune_l120) ;;;
   finetune_l120 g (call w g d)).
Proof. reflexivity. Qed.

Lemma call_l144 w g d args kwargs :
  call w g (S d) (VFunc F_finetune_l144) args kwargs =
  (ps <- bind_args [] args kwargs ;;
   log (EvEnter F_finetune_l144) ;;;
   finetune_l144 w g (call w g d)).
Proof. reflexivity. Qed.

Lemma call_bool w g d b args kwargs tr :
  call w g d (VBool b) args kwargs tr =
  (Raise (TypeError "'bool' object is not callable"), tr).
Proof. destruct d; reflexivity. Qed.

(** ** The configuration builders *)

(** What [build_bnb_config] returns under the script's imports, for every
    record: three keyword arguments, two of them the compute dtype. *)
Lemma build_bnb_config_run w g d (q : QuanitzationArguments) tr :
  g !! "BitsAndBytesConfig" = Some (VExt "transformers.BitsAndBytesConfig") ->
  build_bnb_config g (call w g d) (quant_obj q) tr =
  (Ok (VObj "transformers.BitsAndBytesConfig"
         [ ("load_in_4bit", load_in_4bit q);
           ("bnb_4bit_quant_type", bnb_4bit_compute_dtype q);
           ("bnb_4bit_compute_dtype", bnb_4bit_compute_dtype q) ]),
   (tr ++ [EvCall "transformers.BitsAndBytesConfig"])%list).
Proof.
  intros Hg. unfold build_bnb_config, global_. rewrite Hg.
  rewrite bind_ret. simpl getattr. rewrite !bind_ret, call_ext.
  reflexivity.
Qed.

(** C1, at the declared defaults: the configuration that [build_bnb_config]
    returns has the compute dtype [torch.float16] in its quant-type field,
    not the input's quant type "nf4", and it has no nested-quantization
    field at all, under either name. Only [load_in_4bit] is carried over. *)
Theorem build_bnb_config_default_misroutes :
  exists cfg tr,
    call sample_world sample_globals 1 (VFunc F_build_bnb_config)
      [] [("quant_args", quant_obj default_quant)] [] = (Ok cfg, tr)
    /\ field_of cfg "load_in_4bit" = Some (load_in_4bit default_quant)
    /\ field_of cfg "bnb_4bit_quant_type" = Some (VExt "torch.float16")
    /\ field_of cfg "bnb_4bit_quant_type"
       <> Some (bnb_4bit_quant_type default_quant)
    /\ field_of cfg "use_nested_quant" = None
    /\ field_of cfg "bnb_4bit_use_double_quant" = None.
Proof.
  eexists _, _. split; [vm_compute; reflexivity|].
  repeat split; try reflexivity. discriminate.
Qed.

(** C2: for every adapter record, under the script's import of [LoraConfig],
    [build_lora_config] returns a configuration whose rank, alpha, dropout,
    bias and task type are the fields of the record, unchanged. *)
Theorem build_lora_config_preserves w g d (a : QloraArguments) tr :
  g !! "LoraConfig" = Some (VExt "peft.LoraConfig") ->
  exists cfg,
    build_lora_config g (call w g d) (qlora_obj a) tr
    = (Ok cfg, (tr ++ [EvCall "peft.LoraConfig"])%list)
    /\ field_of cfg "r" = Some (lora_r a)
    /\ field_of cfg "lora_alpha" = Some (lora_alpha a)
    /\ field_of cfg "lora_dropout" = Some (lora_dropout a)
    /\ field_of cfg "bias" = Some (bias a)
    /\ field_of cfg "task_type" = Some (task_type a).
Proof.
  intros Hg. unfold build_lora_config, global_. rewrite Hg.
  rewrite bind_ret. simpl getattr. rewrite !bind_ret, call_ext.
  eexists. split; [reflexivity|]. repeat split.
Qed.

Lemma build_lora_config_preserves_witness :
  exists cfg,
    build_lora_config sample_globals (call sample_world sample_globals 0)
      (qlora_obj default_qlora) []
    = (Ok cfg, ([] ++ [EvCall "peft.LoraConfig"])%list)
    /\ field_of cfg "r" = Some (lora_r default_qlora)
    /\ field_of cfg "lora_alpha" = Some (lora_alpha default_qlora)
    /\ field_of cfg "lora_dropout" = Some (lora_dropout default_qlora)
    /\ field_of cfg "bias" = Some (bias default_qlora)
    /\ field_of cfg "task_type" = Some (task_type default_qlora).
Proof.
  apply (build_lora_config_preserves sample_world sample_globals 0
           default_qlora []).
  vm_compute. reflexivity.
Defined.

(** C10: two records that agree on [load_in_4bit] and on the compute dtype
    give the same run of [build_bnb_config], outcome and trace, whatever
    their quant types and nested-quantization flags are, in every namespace
    and every world; under the script's import of [BitsAndBytesConfig] both
    runs return one and the same configuration. *)
Theorem build_bnb_config_ignores_quant_type w g d
    (q1 q2 : QuanitzationArguments) tr :
  load_in_4bit q1 = load_in_4bit q2 ->
  bnb_4bit_compute_dtype q1 = bnb_4bit_compute_dtype q2 ->
  build_bnb_config g (call w g d) (quant_obj q1) tr
  = build_bnb_config g (call w g d) (quant_obj q2) tr
  /\ (g !! "BitsAndBytesConfig" = Some (VExt "transformers.BitsAndBytesConfig") ->
      exists cfg tr',
        build_bnb_config g (call w g d) (quant_obj q1) tr = (Ok cfg, tr')
        /\ build_bnb_config g (call w g d) (quant_obj q2) tr = (Ok cfg, tr')).
Proof.
  intros H1 H2. split.
  - unfold build_bnb_config, bind.
    destruct (global_ g "BitsAndBytesConfig" tr) as [[c|e] tr1]; [|reflexivity].
    simpl. now rewrite H1, H2.
  - intros Hg. rewrite !(build_bnb_config_run _ _ _ _ _ Hg), H1, H2. eauto.
Qed.

Lemma build_bnb_config_ignores_quant_type_witness :
  build_bnb_config sample_globals (call sample_world sample_globals 0)
    (quant_obj default_quant) []
  = build_bnb_config sample_globals (call sample_world sample_globals 0)
      (quant_obj {| load_in_4bit := VBool true;
                    bnb_4bit_compute_dtype := VExt "torch.float16";
                    bnb_4bit_quant_type := VStr "fp4";
                    use_nested_quant := VBool true |}) []
  /\ (sample_globals !! "BitsAndBytesConfig"
      = Some (VExt "transformers.BitsAndBytesConfig") ->
      exists cfg tr',
        build_bnb_config sample_globals (call sample_world sample_globals 0)
          (quant_obj default_quant) [] = (Ok cfg, tr')
        /\ build_bnb_config sample_globals (call sample_world sample_globals 0)
             (quant_obj {| load_in_4bit := VBool true;
                           bnb_4bit_compute_dtype := VExt "torch.float16";
                           bnb_4bit_quant_type := VStr "fp4";
                           use_nested_quant := VBool true |}) []
           = (Ok cfg, tr')).
Proof.
  apply (build_bnb_config_ignores_quant_type sample_world sample_globals 0
           default_quant
           {| load_in_4bit := VBool true;
              bnb_4bit_compute_dtype := VExt "torch.float16";
              bnb_4bit_quant_type := VStr "fp4";
              use_nested_quant := VBool true |} []); reflexivity.
Defined.

(** ** The save helper *)

(** C8: for every trainer, a call of [safe_save_model_for_hf_trainer] is line
    111 followed by the [TypeError] of calling the boolean [should_save] at
    line 112. It always raises, and lines 113-115, the save routine among
    them, are never run. *)
Theorem safe_save_fails_at_should_save w g d (t : Trainer)
    (output_dir : value) tr :
  safe_save_model_for_hf_trainer (call w g d) (trainer_obj t) output_dir tr
  = (state_dict_ <- getattr (trainer_model t) "state_dict" ;;
     state_dict <- call w g d state_dict_ [] [] ;;
     raise (TypeError "'bool' object is not callable")) tr
  /\ exists e tr',
      safe_save_model_for_hf_trainer (call w g d) (trainer_obj t) output_dir tr
      = (Raise e, tr').
Proof.
  assert (E : safe_save_model_for_hf_trainer (call w g d) (trainer_obj t)
                output_dir tr
              = (state_dict_ <- getattr (trainer_model t) "state_dict" ;;
                 state_dict <- call w g d state_dict_ [] [] ;;
                 raise (TypeError "'bool' object is not callable")) tr).
  { unfold safe_save_model_for_hf_trainer. simpl getattr at 1.
    rewrite bind_ret. unfold bind.
    destruct (getattr (trainer_model t) "state_dict" tr) as [[m|e] tr1];
      [|reflexivity].
    destruct (call w g d m [] [] tr1) as [[sd|e] tr2]; [|reflexivity].
    simpl. now rewrite call_bool. }
  split; [exact E|]. rewrite E.
  apply bind_always_raises. intros m tr1.
  apply bind_always_raises. intros sd tr2. eauto.
Qed.

(** ** The class statement of lines 48-60 *)

Lemma global_builtin g name tr :
  is_builtin name = true -> exists v, global_ g name tr = (Ok v, tr).
Proof.
  intros Hb. unfold global_. destruct (g !! name); [eauto|].
  rewrite Hb. eauto.
Qed.

(** The class statement of lines 48-60 stops at line 53. *)
Lemma class_ModelTrainingArguments_stops w d g tr :
  g !! "Optional" = Some (VExt "typing.Optional") ->
  class_ModelTrainingArguments w d g tr
  = (dec <- global_ g "dataclass" ;;
     bs <- mapM (global_ g) ["TrainingArguments"] ;;
     v <- field_ w d empty_class g (ret VNone)
            [("help", VStr "Optional path where you want model checkpoints and final model to be saved")] ;;
     raise (TypeError
              "'_SpecialForm' object does not support item assignment")) tr
  /\ exists e tr', class_ModelTrainingArguments w d g tr = (Raise e, tr').
Proof.
  intros HO.
  assert (E : forall tr, class_ModelTrainingArguments w d g tr
    = (dec <- global_ g "dataclass" ;;
       bs <- mapM (global_ g) ["TrainingArguments"] ;;
       v <- field_ w d empty_class g (ret VNone)
              [("help", VStr "Optional path where you want model checkpoints and final model to be saved")] ;;
       raise (TypeError
                "'_SpecialForm' object does not support item assignment")) tr).
  { clear tr. intros tr.
    unfold class_ModelTrainingArguments, class_def,
      body_ModelTrainingArguments.
    apply bind_cong; intros dec tr1.
    apply bind_cong; intros bs tr2.
    rewrite bind_assoc. apply bind_cong; intros v tr3.
    unfold name_ at 1. simpl assoc. unfold global_ at 1. rewrite HO.
    rewrite bind_assoc, bind_ret.
    destruct (global_builtin g "str" tr3 eq_refl) as [i Hi].
    unfold name_ at 1. simpl assoc.
    rewrite bind_assoc, (bind_ok _ _ _ _ _ Hi).
    reflexivity. }
  split; [apply E|]. rewrite E.
  repeat (apply bind_always_raises; intros).
  unfold raise. eauto.
Qed.


(** C9: in a namespace where [Optional] is what line 2 imports, the class
    statement of [ModelTrainingArguments] is the evaluation of its decorator,
    its base and the [field(...)] of line 53, followed by the [TypeError] of
    assigning to [Optional[str]]. It always raises: the class is never made
    and its name is never bound. *)
Theorem ModelTrainingArguments_cannot_execute w d g tr :
  g !! "Optional" = Some (VExt "typing.Optional") ->
  class_ModelTrainingArguments w d g tr
  = (dec <- global_ g "dataclass" ;;
     bs <- mapM (global_ g) ["TrainingArguments"] ;;
     v <- field_ w d empty_class g (ret VNone)
            [("help", VStr "Optional path where you want model checkpoints and final model to be saved")] ;;
     raise (TypeError
              "'_SpecialForm' object does not support item assignment")) tr
  /\ exists e tr', class_ModelTrainingArguments w d g tr = (Raise e, tr').
Proof. apply class_ModelTrainingArguments_stops. Qed.

Lemma ModelTrainingArguments_class_raises w d g tr g' tr' :
  class_ModelTrainingArguments w d g tr = (Ok g', tr') ->
  g !! "Optional" = Some (VExt "typing.Optional") -> False.
Proof.
  intros H HO.
  destruct (class_ModelTrainingArguments_stops w d g tr HO)
    as (_ & e & tr1 & E).
  congruence.
Qed.

Lemma ModelTrainingArguments_cannot_execute_witness :
  class_ModelTrainingArguments sample_world 10 sample_globals []
  = (dec <- global_ sample_globals "dataclass" ;;
     bs <- mapM (global_ sample_globals) ["TrainingArguments"] ;;
     v <- field_ sample_world 10 empty_class sample_globals (ret VNone)
            [("help", VStr "Optional path where you want model checkpoints and final model to be saved")] ;;
     raise (TypeError
              "'_SpecialForm' object does not support item assignment")) []
  /\ exists e tr',
      class_ModelTrainingArguments sample_world 10 sample_globals []
      = (Raise e, tr').
Proof.
  apply (ModelTrainingArguments_cannot_execute sample_world 10
           sample_globals []).
  vm_compute. reflexivity.
Defined.

(** In the sample world the statement gets as far as line 53 and stops there
    with the [TypeError]. *)
Example ModelTrainingArguments_sample :
  class_ModelTrainingArguments sample_world 10 sample_globals []
  = (Raise (TypeError
              "'_SpecialForm' object does not support item assignment"),
     [EvCall "dataclasses.field"]).
Proof. vm_compute. reflexivity. Qed.

(** ** Checkpoint discovery *)



Lemma global_bound g name v tr :
  g !! name = Some v -> global_ g name tr = (Ok v, tr).
Proof. intros H. unfold global_. now rewrite H. Qed.

Lemma global_unbound_builtin g name tr :
  g !! name = None -> is_builtin name = true ->
  global_ g name tr = (Ok (VExt ("builtins." +:+ name)), tr).
Proof. intros H Hb. unfold global_. now rewrite H, Hb. Qed.


Lemma call_glob w g d dir pattern tr :
  call w g d (VAttr (path_obj dir) "glob") [VStr pattern] [] tr
  = (Ok (VList (glob w dir pattern)), (tr ++ [EvMethod "glob"])%list).
Proof. rewrite call_attr. reflexivity. Qed.

Lemma call_list w g d l tr :
  call w g d (VExt "builtins.list") [VList l] [] tr
  = (Ok (VList l), (tr ++ [EvCall "builtins.list"])%list).
Proof. rewrite call_ext. reflexivity. Qed.


Lemma glob_length w dir pattern :
  length (glob w dir pattern)
  = length (filter (fun n => matches pattern n = true) (listdir w dir)).
Proof. unfold glob. apply length_map. Qed.

(** C3, in the script as it is: the output directory of the sample world
    holds two entries that match [checkpoint-*] and two that do not, and
    lines 162-165 return no list: they stop at the name [pathlib], which
    nothing binds. *)
Theorem checkpoint_discovery_sample_raises :
  length (filter (fun n => matches "checkpoint-*" n = true)
            (listdir sample_world "out")) = 2%nat
  /\ length (filter (fun n => negb (matches "checkpoint-*" n) = true)
            (listdir sample_world "out")) = 2%nat
  /\ checkpoint_discovery sample_globals
       (call sample_world sample_globals 10) sample_training_args []
     = (Raise (NameError "pathlib"), []).
Proof. vm_compute. auto. Qed.

(** ** The entry function *)

Lemma checkpoint_discovery_unbound w g d ta tr :
  g !! "pathlib" = None ->
  checkpoint_discovery g (call w g d) ta tr = (Raise (NameError "pathlib"), tr).
Proof.
  intros Hp. unfold checkpoint_discovery.
  destruct (global_builtin g "list" tr eq_refl) as [l Hl].
  rewrite (bind_ok _ _ _ _ _ Hl).
  unfold global_ at 1. rewrite Hp. reflexivity.
Qed.

(** C6: in a namespace that does not bind [pathlib], as the namespace of the
    script does not, no call of [finetune] returns: the call raises in every
    world, and when lines 145-160 complete, what it raises is the
    [NameError] for [pathlib] of line 165. *)
Theorem finetune_never_completes w g d tr :
  g !! "pathlib" = None ->
  (exists e tr', finetune_l144 w g (call w g d) tr = (Raise e, tr'))
  /\ (forall args kwargs, exists e tr',
        call w g d (VFunc F_finetune_l144) args kwargs tr = (Raise e, tr'))
  /\ (forall l tr1,
        finetune_l144_setup w g (call w g d) tr = (Ok l, tr1) ->
        finetune_l144 w g (call w g d) tr = (Raise (NameError "pathlib"), tr1)).
Proof.
  intros Hp.
  assert (Hbody : forall d tr,
    exists e tr', finetune_l144 w g (call w g d) tr = (Raise e, tr')).
  { intros d' tr0. unfold finetune_l144.
    apply bind_always_raises. intros l tr1.
    rewrite (bind_fail _ _ _ _ _ (checkpoint_discovery_unbound w g d' _ tr1 Hp)).
    eauto. }
  split; [apply Hbody|]. split.
  - intros args kwargs. destruct d as [|d']; simpl; [unfold raise; eauto|].
    apply bind_always_raises. intros ps tr1.
    apply bind_always_raises. intros _ tr2. apply Hbody.
  - intros l tr1 Hs. unfold finetune_l144.
    rewrite (bind_ok _ _ _ _ _ Hs).
    now rewrite (bind_fail _ _ _ _ _ (checkpoint_discovery_unbound w g d _ tr1 Hp)).
Qed.

Lemma finetune_never_completes_witness :
  (exists e tr',
      finetune_l144 sample_world sample_globals
        (call sample_world sample_globals 1) [] = (Raise e, tr'))
  /\ (forall args kwargs, exists e tr',
        call sample_world sample_globals 1 (VFunc F_finetune_l144) args kwargs []
        = (Raise e, tr'))
  /\ (forall l tr1,
        finetune_l144_setup sample_world sample_globals
          (call sample_world sample_globals 1) [] = (Ok l, tr1) ->
        finetune_l144 sample_world sample_globals
          (call sample_world sample_globals 1) []
        = (Raise (NameError "pathlib"), tr1)).
Proof.
  apply (finetune_never_completes sample_world sample_globals 1 []).
  vm_compute. reflexivity.
Defined.

(** In the sample world lines 145-160 do complete, and the call of
    [finetune] ends at line 165. *)
Example finetune_sample_reaches_discovery :
  (exists l tr1,
      finetune_l144_setup sample_world sample_globals
        (call sample_world sample_globals 1) [] = (Ok l, tr1))
  /\ fst (call sample_world sample_globals 2 (VFunc F_finetune_l144) [] [] [])
     = Raise (NameError "pathlib").
Proof. split; [eexists _, _|]; vm_compute; reflexivity. Qed.

(** ** Which functions a run can enter *)

Lemma entered_app evs1 evs2 :
  entered (evs1 ++ evs2) = (entered evs1 ++ entered evs2)%list.
Proof.
  induction evs1 as [|[f|q|n] evs1 IH]; simpl; [reflexivity| |assumption..].
  now rewrite IH.
Qed.





Lemma assoc_ff name attrs v : ffk attrs -> assoc name attrs = Some v ->
  func_free v = true.
Proof.
  unfold ffk. induction attrs as [|[k x] attrs IH]; simpl; [discriminate|].
  intros [Hx Hr]%andb_prop. destruct (String.eqb name k).
  - intros [= <-]. exact Hx.
  - now apply IH.
Qed.

Lemma assoc_set_ff name v attrs : func_free v = true -> ffk attrs ->
  ffk (assoc_set name v attrs).
Proof.
  unfold ffk. intros Hv. induction attrs as [|[k x] attrs IH]; simpl.
  - now rewrite Hv.
  - intros [Hx Hr]%andb_prop. destruct (String.eqb name k); simpl.
    + now rewrite Hv, Hr.
    + now rewrite Hx, IH.
Qed.

Lemma assoc_del_ff name attrs : ffk attrs -> ffk (assoc_del name attrs).
Proof.
  unfold ffk. induction attrs as [|[k x] attrs IH]; simpl; [reflexivity|].
  intros [Hx Hr]%andb_prop. destruct (String.eqb name k); simpl.
  - now apply IH.
  - now rewrite Hx, IH.
Qed.

Lemma glob_ff w d pattern : ffs (glob w d pattern).
Proof.
  unfold ffs, glob.
  induction (filter _ (listdir w d)) as [|n l IH]; simpl; [reflexivity|exact IH].
Qed.

Lemma items_ff kvs : ffk kvs ->
  ffs (map (fun kv => VTuple [VStr (fst kv); snd kv]) kvs).
Proof.
  unfold ffk, ffs. induction kvs as [|[k x] kvs IH]; simpl; [reflexivity|].
  intros [Hx Hr]%andb_prop. now rewrite Hx, IH.
Qed.

Section Confinement.
Variable allowed : list func_id.

Lemma confined_ret {A} (P : A -> Prop) a : P a -> confined allowed P (ret a).
Proof.
  intros HP tr r tr' [= <- <-]. exists []. rewrite app_nil_r.
  repeat split; [intros f []|now intros a' [= <-]].
Qed.

Lemma confined_raise {A} (P : A -> Prop) e : confined allowed P (raise e).
Proof.
  intros tr r tr' [= <- <-]. exists []. rewrite app_nil_r.
  repeat split; [intros f []|discriminate].
Qed.

Lemma confined_lift {A} (P : A -> Prop) o :
  (forall a, o = Ok a -> P a) -> confined allowed P (lift o).
Proof.
  intros HP tr r tr' [= <- <-]. exists []. rewrite app_nil_r.
  repeat split; [intros f []|exact HP].
Qed.

Lemma confined_log ev :
  (forall f, ev = EvEnter f -> In f allowed) ->
  confined allowed (fun _ => True) (log ev).
Proof.
  intros Hev tr r tr' [= <- <-]. exists [ev].
  split; [reflexivity|]. split; [|trivial].
  destruct ev as [f'|q|n]; simpl; intros f0 Hin; try contradiction.
  destruct Hin as [<-|[]]. now apply Hev.
Qed.

Lemma confined_bind {A B} (Q : A -> Prop) (P : B -> Prop) m k :
  confined allowed Q m -> (forall a, Q a -> confined allowed P (k a)) ->
  confined allowed P (bind m k).
Proof.
  intros Hm Hk tr r tr' Hrun. unfold bind in Hrun.
  destruct (m tr) as [[a|e] tr1] eqn:Em.
  - destruct (Hm _ _ _ Em) as (evs1 & -> & H1 & HQ).
    destruct (Hk a (HQ a eq_refl) _ _ _ Hrun) as (evs2 & -> & H2 & HP).
    exists (evs1 ++ evs2)%list. rewrite app_assoc. repeat split; [|exact HP].
    intros f. rewrite entered_app, in_app_iff. intros [?|?]; auto.
  - injection Hrun as <- <-.
    destruct (Hm _ _ _ Em) as (evs1 & -> & H1 & _).
    exists evs1. repeat split; [exact H1|discriminate].
Qed.

Lemma confined_weaken {A} (P Q : A -> Prop) m :
  confined allowed P m -> (forall a, P a -> Q a) -> confined allowed Q m.
Proof.
  intros Hm HPQ tr r tr' Hrun.
  destruct (Hm _ _ _ Hrun) as (evs & -> & H1 & HP).
  exists evs. repeat split; auto.
Qed.

Lemma getattr_confined o name :
  func_free o = true ->
  confined allowed (fun v => func_free v = true) (getattr o name).
Proof.
  intros Ho. destruct o; simpl in *; try discriminate;
    try apply confined_raise; try (now apply confined_ret).
  - apply andb_prop in Ho as [Hb Hbody].
    destruct (assoc name body) as [v|] eqn:E.
    + apply confined_ret. now apply (assoc_ff name body).
    + apply confined_ret. simpl. now rewrite Hb.
  - destruct (assoc name attrs) as [v|] eqn:E.
    + apply confined_ret. now apply (assoc_ff name attrs).
    + now apply confined_ret.
Qed.

Lemma iterate_confined v :
  func_free v = true -> confined allowed ffs (iterate v).
Proof.
  intros Hv. destruct v; simpl in *; try apply confined_raise;
    apply confined_ret; unfold ffs; try assumption.
  - induction (String.list_ascii_of_string s); simpl; auto.
  - induction entries as [|[k x] l IH]; simpl in *; [reflexivity|].
    apply andb_prop in Hv as [_ Hv]. now apply IH.
Qed.

Lemma unpack5_confined v :
  func_free v = true ->
  confined allowed
    (fun t => let '(a, b, c, d, e) := t in
              func_free a = true /\ func_free b = true /\ func_free c = true
              /\ func_free d = true /\ func_free e = true)
    (unpack5 v).
Proof.
  intros Hv. unfold unpack5.
  apply (confined_bind ffs); [now apply iterate_confined|].
  intros l Hl. unfold ffs in Hl.
  destruct l as [|a [|b [|c [|d [|e [|x l]]]]]]; try apply confined_raise.
  apply confined_ret. simpl in Hl.
  repeat (apply andb_prop in Hl as [? Hl]). auto.
Qed.

Lemma unpack2_confined v :
  func_free v = true ->
  confined allowed
    (fun t => func_free (fst t) = true /\ func_free (snd t) = true)
    (unpack2 v).
Proof.
  intros Hv. unfold unpack2.
  apply (confined_bind ffs); [now apply iterate_confined|].
  intros l Hl. unfold ffs in Hl.
  destruct l as [|a [|b [|x l]]]; try apply confined_raise.
  apply confined_ret. simpl in *.
  repeat (apply andb_prop in Hl as [? Hl]). auto.
Qed.

Lemma bind_args_confined params : forall args kwargs,
  ffs args -> ffk kwargs ->
  confined allowed ffs (bind_args params args kwargs).
Proof.
  unfold ffs.
  induction params as [|p ps IH]; intros args kwargs Ha Hk; simpl.
  - destruct args; [|apply confined_raise].
    destruct kwargs; [now apply confined_ret|apply confined_raise].
  - destruct args as [|a args].
    + destruct (assoc p kwargs) as [v|] eqn:E; [|apply confined_raise].
      apply (confined_bind ffs).
      * apply IH; [reflexivity|now apply assoc_del_ff].
      * intros vs Hvs. apply confined_ret. unfold ffs in *. simpl.
        now rewrite (assoc_ff _ _ _ Hk E), Hvs.
    + destruct (assoc p kwargs); [apply confined_raise|].
      simpl in Ha. apply andb_prop in Ha as [Ha1 Ha2].
      apply (confined_bind ffs); [now apply IH|].
      intros vs Hvs. apply confined_ret. unfold ffs in *. simpl.
      now rewrite Ha1, Hvs.
Qed.

End Confinement.

Lemma nth_ff n ps : ffs ps -> func_free (nth n ps VNone) = true.
Proof.
  unfold ffs. revert n. induction ps as [|p ps IH]; intros [|n] H; simpl in *;
    try reflexivity; apply andb_prop in H as [H1 H2]; auto.
Qed.

Section Reach.
Variable w : world.
Variable g : namespace.
Hypothesis Hw : lib_closed w.
Hypothesis Hg : module_like g.
Variable allowed : list func_id.

Lemma global_confined name :
  confined allowed (binds_well name) (global_ g name).
Proof.
  unfold global_. destruct (g !! name) as [v|] eqn:E.
  - apply confined_ret. now apply Hg.
  - destruct (is_builtin name); [|apply confined_raise].
    apply confined_ret. now left.
Qed.

Lemma global_plain name :
  (forall fid, def_name fid <> name) ->
  confined allowed (fun v => func_free v = true) (global_ g name).
Proof.
  intros Hn. eapply confined_weaken; [apply global_confined|].
  intros v [Hv|(fid & _ & Hd)]; [exact Hv|]. now destruct (Hn fid).
Qed.

Lemma world_call_confined q args kwargs :
  confined allowed (fun v => func_free v = true)
    (lift (lib_call w q args kwargs)).
Proof. apply confined_lift. intros v Hv. exact (proj1 Hw _ _ _ _ Hv). Qed.

Lemma world_method_confined self name args kwargs :
  confined allowed (fun v => func_free v = true)
    (lift (lib_method w self name args kwargs)).
Proof. apply confined_lift. intros v Hv. exact (proj2 Hw _ _ _ _ _ Hv). Qed.

Lemma setattr_confined o name v :
  func_free o = true -> func_free v = true ->
  confined allowed (fun v => func_free v = true) (setattr w o name v).
Proof.
  intros Ho Hv. destruct o; simpl in *; try discriminate;
    try apply confined_raise.
  - apply andb_prop in Ho as [Hb Hbody]. apply confined_ret. simpl.
    rewrite Hb. now apply assoc_set_ff.
  - eapply confined_bind; [apply world_method_confined|].
    intros _ _. now apply confined_ret.
  - apply confined_ret. simpl. now apply assoc_set_ff.
  - eapply confined_bind; [apply world_method_confined|].
    intros _ _. now apply confined_ret.
Qed.

Lemma lib_model_call_confined q args kwargs m :
  lib_model_call q args kwargs = Some m -> ffs args -> ffk kwargs ->
  confined allowed (fun v => func_free v = true) m.
Proof.
  unfold lib_model_call, ffs. intros H Ha Hk.
  repeat match type of H with
         | context [match ?x with _ => _ end] => destruct x eqn:?
         end; try discriminate; injection H as <-; apply confined_ret;
    first [ exact Hk
          | reflexivity
          | simpl in Ha; now rewrite andb_true_r in Ha ].
Qed.

Lemma lib_model_method_confined self name args kwargs m :
  lib_model_method w self name args kwargs = Some m ->
  func_free self = true ->
  confined allowed (fun v => func_free v = true) m.
Proof.
  unfold lib_model_method. intros H Hs.
  repeat match type of H with
         | context [match ?x with _ => _ end] => destruct x eqn:?
         end; try discriminate; injection H as <-; apply confined_ret.
  - apply (items_ff _ Hs).
  - apply glob_ff.
Qed.

(** A value that holds no function of the module enters none when it is
    called. *)
Lemma call_ff_confined d f args kwargs :
  func_free f = true -> ffs args -> ffk kwargs ->
  confined allowed (fun v => func_free v = true) (call w g d f args kwargs).
Proof.
  intros Hf Ha Hk. destruct f; try discriminate;
    try (destruct d; apply confined_raise).
  - (* a class of the module *)
    destruct d; simpl;
      (eapply confined_bind; [apply confined_log; discriminate|]);
      intros _ _; apply world_method_confined.
  - (* an imported callable *)
    rewrite call_ext.
    eapply confined_bind; [apply confined_log; discriminate|]. intros _ _.
    destruct (lib_model_call qualname args kwargs) as [m|] eqn:E.
    + now apply (lib_model_call_confined _ _ _ _ E).
    + apply world_call_confined.
  - (* an instance *)
    destruct d; simpl;
      (eapply confined_bind; [apply confined_log; discriminate|]);
      intros _ _; apply world_method_confined.
  - (* a method *)
    rewrite call_attr.
    eapply confined_bind; [apply confined_log; discriminate|]. intros _ _.
    destruct (lib_model_method w f name args kwargs) as [m|] eqn:E.
    + now apply (lib_model_method_confined _ _ _ _ _ E).
    + apply world_method_confined.
Qed.

Lemma build_bnb_config_confined d quant_args :
  func_free quant_args = true ->
  confined allowed (fun v => func_free v = true)
    (build_bnb_config g (call w g d) quant_args).
Proof.
  intros Hq. unfold build_bnb_config.
  eapply confined_bind; [apply global_plain; intros []; discriminate|].
  intros B HB.
  eapply confined_bind; [now apply getattr_confined|]. intros a1 H1.
  eapply confined_bind; [now apply getattr_confined|]. intros a2 H2.
  eapply confined_bind; [now apply getattr_confined|]. intros a3 H3.
  eapply confined_bind; [|intros c Hc; apply confined_ret; exact Hc].
  apply call_ff_confined; [assumption|reflexivity|].
  unfold ffk. simpl. now rewrite H1, H2, H3.
Qed.

Lemma build_lora_config_confined d qlora_args :
  func_free qlora_args = true ->
  confined allowed (fun v => func_free v = true)
    (build_lora_config g (call w g d) qlora_args).
Proof.
  intros Hq. unfold build_lora_config.
  eapply confined_bind; [apply global_plain; intros []; discriminate|].
  intros B HB.
  eapply confined_bind; [now apply getattr_confined|]. intros a1 H1.
  eapply confined_bind; [now apply getattr_confined|]. intros a2 H2.
  eapply confined_bind; [now apply getattr_confined|]. intros a3 H3.
  eapply confined_bind; [now apply getattr_confined|]. intros a4 H4.
  eapply confined_bind; [now apply getattr_confined|]. intros a5 H5.
  eapply confined_bind; [|intros c Hc; apply confined_ret; exact Hc].
  apply call_ff_confined; [assumption|reflexivity|].
  unfold ffk. simpl. now rewrite H1, H2, H3, H4, H5.
Qed.

(** What the names [build_bnb_config] and [build_lora_config] can be bound to
    enters at most the builder of that name. *)
Lemma call_builder_confined d name v args kwargs :
  In F_build_bnb_config allowed -> In F_build_lora_config allowed ->
  name = "build_bnb_config" \/ name = "build_lora_config" ->
  binds_well name v -> ffs args -> ffk kwargs ->
  confined allowed (fun v => func_free v = true) (call w g d v args kwargs).
Proof.
  intros Hb Hl Hname [Hv|(fid & -> & Hd)] Ha Hk;
    [now apply call_ff_confined|].
  destruct d as [|d]; [apply confined_raise|].
  destruct Hname as [-> | ->]; destruct fid; try discriminate.
  - rewrite call_bnb.
    eapply confined_bind; [now apply bind_args_confined|]. intros ps Hps.
    eapply confined_bind; [apply confined_log; now intros f [= <-]|].
    intros _ _. apply build_bnb_config_confined. now apply nth_ff.
  - rewrite call_lora.
    eapply confined_bind; [now apply bind_args_confined|]. intros ps Hps.
    eapply confined_bind; [apply confined_log; now intros f [= <-]|].
    intros _ _. apply build_lora_config_confined. now apply nth_ff.
Qed.

Lemma finetune_l120_confined d :
  confined allowed (fun _ => True) (finetune_l120 g (call w g d)).
Proof.
  unfold finetune_l120.
  eapply confined_bind; [apply global_plain; intros []; discriminate|].
  intros P HP.
  do 5 (eapply confined_bind;
        [apply global_plain; intros []; discriminate|]; intros ? ?).
  eapply confined_bind.
  { apply call_ff_confined; [assumption| |reflexivity].
    unfold ffs. cbv beta in *. simpl.
    repeat match goal with H : func_free _ = true |- _ => rewrite H; clear H end.
    reflexivity. }
  intros parser Hparser.
  eapply confined_bind; [now apply getattr_confined|]. intros m Hm.
  eapply confined_bind; [now apply call_ff_confined|]. intros r Hr.
  eapply confined_bind; [now apply unpack5_confined|].
  intros [[[[? ?] ?] ?] ?] _. now apply confined_ret.
Qed.

Lemma finetune_l144_setup_confined d :
  In F_build_bnb_config allowed -> In F_build_lora_config allowed ->
  confined allowed (fun l => func_free (l_training_args l) = true)
    (finetune_l144_setup w g (call w g d)).
Proof.
  intros Hb Hl. unfold finetune_l144_setup.
  eapply confined_bind; [apply global_plain; intros []; discriminate|].
  intros P HP.
  do 5 (eapply confined_bind;
        [apply global_plain; intros []; discriminate|]; intros ? ?).
  eapply confined_bind.
  { apply call_ff_confined; [assumption| |reflexivity].
    unfold ffs. cbv beta in *. simpl.
    repeat match goal with H : func_free _ = true |- _ => rewrite H; clear H end.
    reflexivity. }
  intros parser Hparser.
  eapply confined_bind; [now apply getattr_confined|]. intros m Hm.
  eapply confined_bind; [now apply call_ff_confined|]. intros r Hr.
  eapply confined_bind; [now apply unpack5_confined|].
  intros [[[[model_args data_args] training_args] quant_args] qlora_args]
    (Hma & Hda & Hta & Hqa & Hla).
  eapply confined_bind; [apply global_confined|]. intros fb Hfb.
  eapply confined_bind.
  { apply (call_builder_confined d "build_bnb_config");
      [exact Hb|exact Hl|now left|exact Hfb|reflexivity|].
    unfold ffk. simpl. now rewrite Hqa. }
  intros bnb_config Hbnb.
  eapply confined_bind; [apply global_confined|]. intros fl Hfl.
  eapply confined_bind.
  { apply (call_builder_confined d "build_lora_config");
      [exact Hb|exact Hl|now right|exact Hfl|reflexivity|].
    unfold ffk. simpl. now rewrite Hla. }
  intros peft_config Hpeft.
  eapply confined_bind; [apply global_plain; intros []; discriminate|].
  intros A HA.
  eapply confined_bind; [now apply getattr_confined|]. intros fp Hfp.
  eapply confined_bind; [now apply getattr_confined|]. intros mn Hmn.
  eapply confined_bind.
  { apply call_ff_confined; [assumption| |].
    - unfold ffs. simpl. now rewrite Hmn.
    - unfold ffk. simpl. now rewrite Hbnb. }
  intros model Hmodel.
  eapply confined_bind; [apply global_plain; intros []; discriminate|].
  intros T HT.
  eapply confined_bind; [now apply getattr_confined|]. intros fp2 Hfp2.
  eapply confined_bind; [now apply getattr_confined|]. intros mn2 Hmn2.
  eapply confined_bind.
  { apply call_ff_confined; [assumption| |reflexivity].
    unfold ffs. simpl. now rewrite Hmn2. }
  intros tokenizer Htok.
  eapply confined_bind; [now apply getattr_confined|]. intros eos Heos.
  eapply confined_bind; [now apply setattr_confined|]. intros tok2 Htok2.
  now apply confined_ret.
Qed.

Lemma checkpoint_discovery_confined d training_args :
  func_free training_args = true ->
  confined allowed (fun rc => fst rc = VBool false)
    (checkpoint_discovery g (call w g d) training_args).
Proof.
  intros Hta. unfold checkpoint_discovery.
  eapply confined_bind; [apply global_plain; intros []; discriminate|].
  intros l Hl.
  eapply confined_bind; [apply global_plain; intros []; discriminate|].
  intros p Hp.
  eapply confined_bind; [now apply getattr_confined|]. intros P HP.
  eapply confined_bind; [now apply getattr_confined|]. intros od Hod.
  eapply confined_bind.
  { apply call_ff_confined; [assumption| |reflexivity].
    unfold ffs. simpl. now rewrite Hod. }
  intros po Hpo.
  eapply confined_bind; [now apply getattr_confined|]. intros gl Hgl.
  eapply confined_bind; [now apply call_ff_confined|]. intros found Hfound.
  eapply confined_bind.
  { apply call_ff_confined; [assumption| |reflexivity].
    unfold ffs. simpl. now rewrite Hfound. }
  intros cs Hcs. now apply confined_ret.
Qed.

Lemma finetune_l144_confined d :
  In F_build_bnb_config allowed -> In F_build_lora_config allowed ->
  confined allowed (fun _ => True) (finetune_l144 w g (call w g d)).
Proof.
  intros Hb Hl. unfold finetune_l144.
  eapply confined_bind; [now apply finetune_l144_setup_confined|].
  intros l Hta.
  eapply confined_bind; [now apply checkpoint_discovery_confined|].
  intros rc _. now apply confined_ret.
Qed.

End Reach.

(** ** The sample world and the sample namespace are of the kind assumed *)

Lemma sample_world_closed : lib_closed sample_world.
Proof.
  split.
  - intros q args kwargs v. simpl.
    destruct (String.eqb q _); intros [= <-]; reflexivity.
  - intros self name args kwargs v. simpl.
    destruct (String.eqb name _); intros [= <-]; reflexivity.
Qed.

Lemma module_like_insert g fid :
  module_like g -> module_like (<[def_name fid := VFunc fid]> g).
Proof.
  intros Hg name v. destruct (decide (def_name fid = name)) as [<-|Hne].
  - rewrite lookup_insert_eq. intros [= <-]. right. eauto.
  - rewrite lookup_insert_ne by assumption. apply Hg.
Qed.

Lemma module_like_insert_ff g name v :
  func_free v = true -> module_like g -> module_like (<[name := v]> g).
Proof.
  intros Hv Hg n x. destruct (decide (name = n)) as [<-|Hne].
  - rewrite lookup_insert_eq. intros [= <-]. now left.
  - rewrite lookup_insert_ne by assumption. apply Hg.
Qed.

Lemma sample_globals_module_like : module_like sample_globals.
Proof.
  change (map_Forall binds_well sample_globals).
  apply map_Forall_to_list.
  vm_compute map_to_list.
  repeat (apply Forall_cons; split;
          [first [left; reflexivity | right; eexists; split; reflexivity]|]).
  apply Forall_nil_2.
Qed.

(** ** The two definitions of [finetune] *)

Lemma mapM_global_silent g names tr r tr' :
  mapM (global_ g) names tr = (r, tr') -> tr' = tr.
Proof.
  revert tr r tr'. induction names as [|n names IH]; intros tr r tr'; simpl.
  - now intros [= _ <-].
  - unfold bind at 1. unfold global_ at 1.
    destruct (g !! n); [|destruct (is_builtin n)]; simpl;
      try (now intros [= _ <-]);
      (unfold bind at 1;
       destruct (mapM (global_ g) names tr) as [[bs|e] tr1] eqn:E;
       apply IH in E as ->; now intros [= _ <-]).
Qed.

Lemma def_ok name fid anns g tr g' tr' :
  def_ name fid anns g tr = (Ok g', tr') ->
  g' = <[name := VFunc fid]> g /\ tr' = tr.
Proof.
  unfold def_, bind.
  destruct (mapM (global_ g) anns tr) as [[bs|e] tr1] eqn:E; [|discriminate].
  apply mapM_global_silent in E as ->. now intros [= <- <-].
Qed.

Lemma exec_cons_ok s rest g tr g' tr' :
  exec (s :: rest) g tr = (Ok g', tr') ->
  exists g1 tr1, s g tr = (Ok g1, tr1) /\ exec rest g1 tr1 = (Ok g', tr').
Proof.
  simpl. unfold bind. destruct (s g tr) as [[g1|e] tr1]; [eauto|discriminate].
Qed.

Lemma exec_cons_run s rest g tr g1 tr1 :
  s g tr = (Ok g1, tr1) -> exec (s :: rest) g tr = exec rest g1 tr1.
Proof. intros H. simpl. now rewrite (bind_ok _ _ _ _ _ H). Qed.

(** What the six [def] statements leave when they all complete. *)
Lemma def_stmts_ok g tr g' tr' :
  exec def_stmts g tr = (Ok g', tr') ->
  tr' = tr
  /\ g' = <["finetune" := VFunc F_finetune_l144]>
           (<["build_lora_config" := VFunc F_build_lora_config]>
           (<["build_bnb_config" := VFunc F_build_bnb_config]>
           (<["finetune" := VFunc F_finetune_l120]>
           (<["preprocess_data" := VFunc F_preprocess_data]>
           (<["safe_save_model_for_hf_trainer" :=
                VFunc F_safe_save_model_for_hf_trainer]> g)))))
  /\ exists g1,
      exec (firstn 3 def_stmts) g tr = (Ok g1, tr)
      /\ g1 !! "finetune" = Some (VFunc F_finetune_l120).
Proof.
  unfold def_stmts. intros H.
  apply exec_cons_ok in H as (g1 & tr1 & H1 & H).
  apply exec_cons_ok in H as (g2 & tr2 & H2 & H).
  apply exec_cons_ok in H as (g3 & tr3 & H3 & H).
  apply exec_cons_ok in H as (g4 & tr4 & H4 & H).
  apply exec_cons_ok in H as (g5 & tr5 & H5 & H).
  apply exec_cons_ok in H as (g6 & tr6 & H6 & H).
  simpl in H. injection H as <- <-.
  pose proof (def_ok _ _ _ _ _ _ _ H1) as [E1 T1].
  pose proof (def_ok _ _ _ _ _ _ _ H2) as [E2 T2].
  pose proof (def_ok _ _ _ _ _ _ _ H3) as [E3 T3].
  pose proof (def_ok _ _ _ _ _ _ _ H4) as [E4 T4].
  pose proof (def_ok _ _ _ _ _ _ _ H5) as [E5 T5].
  pose proof (def_ok _ _ _ _ _ _ _ H6) as [E6 T6].
  subst tr1 tr2 tr3 tr4 tr5 tr6.
  split; [reflexivity|]. split; [now subst|].
  exists g3. split.
  - change (firstn 3 _) with
      [ def_ "safe_save_model_for_hf_trainer"
          F_safe_save_model_for_hf_trainer ["Trainer"; "str"];
        def_ "preprocess_data" F_preprocess_data
          ["PreTrainedTokenizer"; "Dict"];
        def_ "finetune" F_finetune_l120 [] ].
    rewrite (exec_cons_run _ _ _ _ _ _ H1), (exec_cons_run _ _ _ _ _ _ H2),
      (exec_cons_run _ _ _ _ _ _ H3).
    reflexivity.
  - rewrite E3. apply lookup_insert_eq.
Qed.

Lemma bind_args_nil_silent (allowed : list func_id) args kwargs :
  confined allowed (fun _ => True) (bind_args [] args kwargs).
Proof.
  destruct args; simpl; [|apply confined_raise].
  destruct kwargs; [now apply confined_ret|apply confined_raise].
Qed.

(** A call of the second [finetune] enters, besides itself, at most the two
    configuration builders. *)
Lemma call_l144_confined w g d args kwargs :
  lib_closed w -> module_like g ->
  confined [F_finetune_l144; F_build_bnb_config; F_build_lora_config]
    (fun _ => True) (call w g d (VFunc F_finetune_l144) args kwargs).
Proof.
  intros Hw Hg. destruct d as [|d]; [apply confined_raise|].
  rewrite call_l144.
  eapply confined_bind; [apply bind_args_nil_silent|]. intros ps _.
  eapply confined_bind; [apply confined_log; intros f [= <-]; simpl; auto|].
  intros _ _. apply finetune_l144_confined; simpl; auto.
Qed.

(** A call of the first [finetune] enters no other function. *)
Lemma call_l120_confined w g d args kwargs :
  lib_closed w -> module_like g ->
  confined [F_finetune_l120] (fun _ => True)
    (call w g d (VFunc F_finetune_l120) args kwargs).
Proof.
  intros Hw Hg. destruct d as [|d]; [apply confined_raise|].
  rewrite call_l120.
  eapply confined_bind; [apply bind_args_nil_silent|]. intros ps _.
  eapply confined_bind; [apply confined_log; intros f [= <-]; simpl; auto|].
  intros _ _. now apply finetune_l120_confined.
Qed.

Lemma confined_run {A} allowed (P : A -> Prop) (m : M A) tr :
  confined allowed P m ->
  exists evs, snd (m tr) = (tr ++ evs)%list
    /\ forall f, In f (entered evs) -> In f allowed.
Proof.
  intros Hm. destruct (m tr) as [r tr'] eqn:E.
  destruct (Hm _ _ _ E) as (evs & -> & H & _). eauto.
Qed.

(** C4: the module defines [finetune] twice. When the [def] statements of
    lines 106-165 have run, the first three leave [finetune] bound to the
    definition of line 120, and all six leave it bound to the definition of
    line 144. At program start, line 170 therefore runs the body of the
    second definition, and the run never enters the first one. *)
Theorem finetune_denotes_second_definition w d g tr g' tr' :
  exec def_stmts g tr = (Ok g', tr') ->
  g !! "__name__" = Some (VStr "__main__") ->
  lib_closed w -> module_like g ->
  (exists g1,
      exec (firstn 3 def_stmts) g tr = (Ok g1, tr)
      /\ g1 !! "finetune" = Some (VFunc F_finetune_l120))
  /\ g' !! "finetune" = Some (VFunc F_finetune_l144)
  /\ stmt_l169 w (S d) g' tr'
     = (_ <- (log (EvEnter F_finetune_l144) ;;;
              finetune_l144 w g' (call w g' d)) ;;
        ret g') tr'
  /\ exists evs,
      snd (stmt_l169 w (S d) g' tr') = (tr' ++ EvEnter F_finetune_l144 :: evs)%list
      /\ ~ In F_finetune_l120 (entered evs).
Proof.
  intros Hexec Hname Hw Hg.
  destruct (def_stmts_ok _ _ _ _ Hexec) as (-> & Eg & Hfirst).
  assert (Hf : g' !! "finetune" = Some (VFunc F_finetune_l144)).
  { rewrite Eg. apply lookup_insert_eq. }
  assert (Hn : g' !! "__name__" = Some (VStr "__main__")).
  { rewrite Eg. now rewrite !lookup_insert_ne by discriminate. }
  assert (Hg' : module_like g').
  { rewrite Eg.
    apply (module_like_insert _ F_finetune_l144).
    apply (module_like_insert _ F_build_lora_config).
    apply (module_like_insert _ F_build_bnb_config).
    apply (module_like_insert _ F_finetune_l120).
    apply (module_like_insert _ F_preprocess_data).
    now apply (module_like_insert _ F_safe_save_model_for_hf_trainer). }
  assert (Hrun : stmt_l169 w (S d) g' tr
     = (_ <- (log (EvEnter F_finetune_l144) ;;;
              finetune_l144 w g' (call w g' d)) ;;
        ret g') tr).
  { unfold stmt_l169.
    rewrite (bind_ok _ _ _ _ _ (global_bound _ _ _ _ Hn)).
    change (eq_str (VStr "__main__") "__main__") with true. cbv iota.
    rewrite (bind_ok _ _ _ _ _ (global_bound _ _ _ _ Hf)).
    rewrite call_l144. reflexivity. }
  split; [exact Hfirst|]. split; [exact Hf|]. split; [exact Hrun|].
  rewrite Hrun.
  destruct (confined_run _ _ (finetune_l144 w g' (call w g' d))
              (tr ++ [EvEnter F_finetune_l144])%list
              (finetune_l144_confined w g' Hw Hg'
                 [F_finetune_l144; F_build_bnb_config; F_build_lora_config]
                 d (or_intror (or_introl eq_refl))
                 (or_intror (or_intror (or_introl eq_refl)))))
    as (evs & Hevs & Hin).
  exists evs. split.
  - unfold bind at 1 2. unfold log.
    destruct (finetune_l144 w g' (call w g' d) _) as [[v|e] tr2];
      simpl in *; subst tr2; now rewrite <- app_assoc.
  - intros H. apply Hin in H. simpl in H.
    destruct H as [H|[H|[H|[]]]]; discriminate.
Qed.



Lemma sample_after_defs_run :
  exec def_stmts sample_globals [] = (Ok sample_after_defs, []).
Proof.
  assert (H : is_ok (fst (exec def_stmts sample_globals [])) = true)
    by (vm_compute; reflexivity).
  unfold sample_after_defs.
  destruct (exec def_stmts sample_globals []) as [[g|e] tr] eqn:E;
    [|discriminate].
  now destruct (def_stmts_ok _ _ _ _ E) as (-> & _).
Qed.

Lemma finetune_denotes_second_definition_witness :
  (exists g1,
      exec (firstn 3 def_stmts) sample_globals [] = (Ok g1, [])
      /\ g1 !! "finetune" = Some (VFunc F_finetune_l120))
  /\ sample_after_defs !! "finetune" = Some (VFunc F_finetune_l144)
  /\ stmt_l169 sample_world 2 sample_after_defs []
     = (_ <- (log (EvEnter F_finetune_l144) ;;;
              finetune_l144 sample_world sample_after_defs
                (call sample_world sample_after_defs 1)) ;;
        ret sample_after_defs) []
  /\ exists evs,
      snd (stmt_l169 sample_world 2 sample_after_defs [])
      = ([] ++ EvEnter F_finetune_l144 :: evs)%list
      /\ ~ In F_finetune_l120 (entered evs).
Proof.
  apply (finetune_denotes_second_definition sample_world 1 sample_globals []
           sample_after_defs []).
  - exact sample_after_defs_run.
  - vm_compute. reflexivity.
  - exact sample_world_closed.
  - exact sample_globals_module_like.
Defined.

(** In the sample world the call of line 170 enters the second definition
    and the two builders, and stops at line 165. *)
Example stmt_l169_sample :
  stmt_l169 sample_world 2 sample_after_defs []
  = (Raise (NameError "pathlib"),
     [ EvEnter F_finetune_l144; EvCall "transformers.HfArgumentParser";
       EvMethod "parse_args_into_dataclasses";
       EvEnter F_build_bnb_config; EvCall "transformers.BitsAndBytesConfig";
       EvEnter F_build_lora_config; EvCall "peft.LoraConfig";
       EvCall "transformers.AutoModelForCausalLM.from_pretrained";
       EvCall "transformers.AutoTokenizer.from_pretrained" ]).
Proof. vm_compute. reflexivity. Qed.

(** ** The preprocessing stub *)

(** C7: [preprocess_data] returns the empty dictionary for every source and
    every tokenizer, and a call of either definition of [finetune] never
    enters it, in a namespace where the functions of the module are bound
    under their own names and with libraries that hold none of them. *)
Theorem preprocess_data_empty_and_never_invoked w g d tr
    (source tokenizer : value) args kwargs :
  lib_closed w -> module_like g ->
  preprocess_data source tokenizer tr = (Ok (VDict []), tr)
  /\ (exists evs,
        snd (call w g d (VFunc F_finetune_l120) args kwargs tr)
        = (tr ++ evs)%list
        /\ ~ In F_preprocess_data (entered evs))
  /\ (exists evs,
        snd (call w g d (VFunc F_finetune_l144) args kwargs tr)
        = (tr ++ evs)%list
        /\ ~ In F_preprocess_data (entered evs)).
Proof.
  intros Hw Hg. split; [reflexivity|]. split.
  - destruct (confined_run _ _ _ tr
                (call_l120_confined w g d args kwargs Hw Hg))
      as (evs & Hevs & Hin).
    exists evs. split; [exact Hevs|].
    intros H. apply Hin in H. simpl in H. destruct H as [H|[]]; discriminate.
  - destruct (confined_run _ _ _ tr
                (call_l144_confined w g d args kwargs Hw Hg))
      as (evs & Hevs & Hin).
    exists evs. split; [exact Hevs|].
    intros H. apply Hin in H. simpl in H.
    destruct H as [H|[H|[H|[]]]]; discriminate.
Qed.

Lemma preprocess_data_empty_and_never_invoked_witness :
  preprocess_data (VStr "def f(): pass") (VObj "LlamaTokenizer" []) []
  = (Ok (VDict []), [])
  /\ (exists evs,
        snd (call sample_world sample_globals 2 (VFunc F_finetune_l120) [] [] [])
        = ([] ++ evs)%list
        /\ ~ In F_preprocess_data (entered evs))
  /\ (exists evs,
        snd (call sample_world sample_globals 2 (VFunc F_finetune_l144) [] [] [])
        = ([] ++ evs)%list
        /\ ~ In F_preprocess_data (entered evs)).
Proof.
  apply (preprocess_data_empty_and_never_invoked sample_world sample_globals 2
           [] (VStr "def f(): pass") (VObj "LlamaTokenizer" []) [] []).
  - exact sample_world_closed.
  - exact sample_globals_module_like.
Defined.

(** ** The contents of the output directory *)

Lemma bind_cong2 {A B} (m1 m2 : M A) (k1 k2 : A -> M B) tr :
  m1 tr = m2 tr -> (forall a tr1, k1 a tr1 = k2 a tr1) ->
  bind m1 k1 tr = bind m2 k2 tr.
Proof.
  intros Hm Hk. unfold bind. rewrite Hm.
  destruct (m2 tr) as [[a|e] tr1]; [apply Hk | reflexivity].
Qed.

Lemma bind_inv_ok {A B} (m : M A) (k : A -> M B) tr b tr' :
  bind m k tr = (Ok b, tr') ->
  exists a tr1, m tr = (Ok a, tr1) /\ k a tr1 = (Ok b, tr').
Proof.
  unfold bind. destruct (m tr) as [[a|e] tr1]; [eauto|discriminate].
Qed.

Lemma getattr_ext q name tr :
  getattr (VExt q) name tr = (Ok (VExt (q +:+ "." +:+ name)), tr).
Proof. reflexivity. Qed.

Lemma is_glob_call_ext q args kwargs : is_glob_call (VExt q) args kwargs = false.
Proof.
  unfold is_glob_call. destruct kwargs; [|reflexivity].
  destruct args as [|[] []]; reflexivity.
Qed.

Lemma is_glob_call_true f args kwargs :
  is_glob_call f args kwargs = true ->
  exists dir pattern,
    f = VAttr (path_obj dir) "glob" /\ args = [VStr pattern] /\ kwargs = [].
Proof.
  unfold is_glob_call. intros H.
  repeat match type of H with
         | context [match ?x with _ => _ end] => destruct x eqn:?
         end; try discriminate; subst.
  apply String.eqb_eq in H as ->. unfold path_obj. eauto.
Qed.

Lemma lib_model_method_listdir ls1 ls2 w self name args kwargs :
  is_glob_call (VAttr self name) args kwargs = false ->
  lib_model_method (with_listdir ls1 w) self name args kwargs
  = lib_model_method (with_listdir ls2 w) self name args kwargs.
Proof.
  intros H. destruct (lib_model_method (with_listdir ls1 w) self name args kwargs)
    as [m|] eqn:E.
  - unfold lib_model_method in E |- *.
    repeat match type of E with
           | context [match ?x with _ => _ end] => destruct x eqn:?
           end; try discriminate; subst; try reflexivity;
      first [congruence | simpl in H; congruence].
  - unfold lib_model_method in E |- *.
    repeat match type of E with
           | context [match ?x with _ => _ end] => destruct x eqn:?
           end; try discriminate; subst; reflexivity.
Qed.



Lemma dropped_bind {A B} (m1 m2 : M A) (k1 k2 : A -> M B) tr :
  m1 tr = m2 tr ->
  (forall a tr1, dropped (k1 a tr1) = dropped (k2 a tr1)) ->
  dropped (bind m1 k1 tr) = dropped (bind m2 k2 tr).
Proof.
  intros Hm Hk. unfold bind. rewrite Hm.
  destruct (m2 tr) as [[a|e] tr1]; [apply Hk | reflexivity].
Qed.



Section ListdirIndependence.
Variable w : world.
Variable g : namespace.
Variables ls1 ls2 : string -> list string.
Hypothesis Htok :
  g !! "AutoTokenizer" = Some (VExt "transformers.AutoTokenizer").
Hypothesis Hlist : g !! "list" = None.
Hypothesis Hpath :
  g !! "pathlib" = None \/ g !! "pathlib" = Some (VExt "pathlib").

Section Bodies.
Variables c1 c2 : value -> list value -> list (string * value) -> M value.
Hypothesis Hc : agree c1 c2.

Ltac agree_step :=
  first
    [ apply bind_cong; intros
    | apply bind_cong2; [apply Hc; reflexivity | intros]
    | reflexivity ].

Lemma cpu_entries_agree items : forall acc tr,
  cpu_entries c1 items acc tr = cpu_entries c2 items acc tr.
Proof.
  induction items as [|item rest IH]; intros acc tr; simpl; [reflexivity|].
  apply bind_cong. intros [key value_] tr1.
  apply bind_cong. intros cpu_ tr2.
  apply bind_cong2; [apply Hc; reflexivity|]. intros c tr3.
  destruct key; try reflexivity. apply IH.
Qed.

Lemma safe_save_agree trainer output_dir tr :
  safe_save_model_for_hf_trainer c1 trainer output_dir tr
  = safe_save_model_for_hf_trainer c2 trainer output_dir tr.
Proof.
  unfold safe_save_model_for_hf_trainer.
  do 6 agree_step. destruct (truthy _); [|reflexivity].
  do 3 agree_step.
  apply bind_cong2; [apply cpu_entries_agree|]. intros.
  repeat agree_step.
Qed.

Lemma finetune_l120_agree tr :
  finetune_l120 g c1 tr = finetune_l120 g c2 tr.
Proof. unfold finetune_l120. repeat agree_step. Qed.

Lemma build_bnb_config_agree quant_args tr :
  build_bnb_config g c1 quant_args tr = build_bnb_config g c2 quant_args tr.
Proof. unfold build_bnb_config. repeat agree_step. Qed.

Lemma build_lora_config_agree qlora_args tr :
  build_lora_config g c1 qlora_args tr = build_lora_config g c2 qlora_args tr.
Proof. unfold build_lora_config. repeat agree_step. Qed.

Lemma finetune_l144_setup_agree tr :
  finetune_l144_setup (with_listdir ls1 w) g c1 tr
  = finetune_l144_setup (with_listdir ls2 w) g c2 tr.
Proof.
  unfold finetune_l144_setup.
  do 10 agree_step.
  destruct a8 as [[[[model_args data_args] training_args] quant_args] qlora_args].
  do 8 agree_step.
  rewrite !(bind_ok _ _ _ _ _ (global_bound _ _ _ _ Htok)).
  simpl getattr. rewrite !bind_ret.
  agree_step.
  apply bind_cong2; [apply Hc; apply is_glob_call_ext|]. intros.
  repeat agree_step.
Qed.

End Bodies.

(** The second [finetune] under two file systems, given that the calls it
    makes agree on every call but [glob]: whatever [glob] finds goes into
    the local [checkpoints] and no further. *)
Lemma finetune_l144_agree d tr :
  agree (call (with_listdir ls1 w) g d) (call (with_listdir ls2 w) g d) ->
  finetune_l144 (with_listdir ls1 w) g (call (with_listdir ls1 w) g d) tr
  = finetune_l144 (with_listdir ls2 w) g (call (with_listdir ls2 w) g d) tr.
Proof.
  intros IH. unfold finetune_l144.
  apply bind_cong2; [now apply finetune_l144_setup_agree|].
  intros l tr3.
  change (dropped (checkpoint_discovery g (call (with_listdir ls1 w) g d)
                     (l_training_args l) tr3)
          = dropped (checkpoint_discovery g (call (with_listdir ls2 w) g d)
                       (l_training_args l) tr3)).
  unfold checkpoint_discovery.
  rewrite !(bind_ok _ _ _ _ _ (global_unbound_builtin g "list" _ Hlist eq_refl)).
  destruct Hpath as [Hp|Hp].
  { unfold global_. rewrite Hp. reflexivity. }
  rewrite !(bind_ok _ _ _ _ _ (global_bound g "pathlib" _ _ Hp)).
  rewrite !(bind_ok _ _ _ _ _ (getattr_ext "pathlib" "Path" tr3)).
  apply dropped_bind; [reflexivity|]. intros output_dir tr4.
  apply dropped_bind; [apply IH; apply is_glob_call_ext|].
  intros p tr5.
  apply dropped_bind; [reflexivity|]. intros glob_ tr6.
  destruct (is_glob_call glob_ [VStr "checkpoint-*"] []) eqn:Eg.
  - apply is_glob_call_true in Eg as (dir & pat & -> & [= <-] & _).
    rewrite !(bind_ok _ _ _ _ _ (call_glob _ g d dir "checkpoint-*" tr6)).
    rewrite !(bind_ok _ _ _ _ _ (call_list _ g d _ _)).
    reflexivity.
  - apply dropped_bind; [now apply IH|]. intros found tr7.
    apply dropped_bind; [apply IH; apply is_glob_call_ext|].
    intros checkpoints tr8. reflexivity.
Qed.

(** Calls made under two file systems agree on every call but [glob]. *)
Lemma call_listdir_agree d :
  agree (call (with_listdir ls1 w) g d) (call (with_listdir ls2 w) g d).
Proof.
  induction d as [|d IH]; intros f args kwargs tr Hglob.
  - destruct f; try reflexivity.
    simpl. now rewrite (lib_model_method_listdir ls1 ls2).
  - destruct f; try reflexivity.
    + (* a function of the module *)
      destruct f; simpl; apply bind_cong; intros ps tr1;
        apply bind_cong; intros _ tr2.
      * now apply safe_save_agree.
      * reflexivity.
      * now apply finetune_l120_agree.
      * now apply build_bnb_config_agree.
      * now apply build_lora_config_agree.
      * now apply finetune_l144_agree.
    + (* a method *)
      simpl. now rewrite (lib_model_method_listdir ls1 ls2).
Qed.

End ListdirIndependence.

Lemma checkpoint_discovery_flag g c training_args tr r cs tr' :
  checkpoint_discovery g c training_args tr = (Ok (r, cs), tr') ->
  r = VBool false.
Proof.
  unfold checkpoint_discovery. intros H.
  repeat (apply bind_inv_ok in H as (? & ? & _ & H)).
  now injection H as <- _ _.
Qed.

(** C5: the result of the checkpoint scan is never consulted. In a namespace
    where [AutoTokenizer] is the imported class and [list] is the builtin,
    whether [pathlib] is unbound, as in the script, or imported, a call of
    [finetune] has the same outcome and the same trace for any two contents
    of the file system; and whenever lines 162-165 complete, the flag
    [resume_from_checkpoint] is the [False] it was assigned at line 163. *)
Theorem checkpoint_result_never_consulted w g d tr
    (ls1 ls2 : string -> list string) :
  g !! "AutoTokenizer" = Some (VExt "transformers.AutoTokenizer") ->
  g !! "list" = None ->
  g !! "pathlib" = None \/ g !! "pathlib" = Some (VExt "pathlib") ->
  finetune_l144 (with_listdir ls1 w) g (call (with_listdir ls1 w) g d) tr
  = finetune_l144 (with_listdir ls2 w) g (call (with_listdir ls2 w) g d) tr
  /\ forall training_args tr1 r cs tr2,
      checkpoint_discovery g (call (with_listdir ls1 w) g d) training_args tr1
      = (Ok (r, cs), tr2) ->
      r = VBool false.
Proof.
  intros Htok Hlist Hpath. split.
  - apply finetune_l144_agree; try assumption.
    now apply call_listdir_agree.
  - intros ta tr1 r cs tr2. apply checkpoint_discovery_flag.
Qed.

Lemma checkpoint_result_never_consulted_witness :
  finetune_l144 (with_listdir (listdir sample_world) sample_world)
    sample_globals_pathlib
    (call (with_listdir (listdir sample_world) sample_world)
       sample_globals_pathlib 1) []
  = finetune_l144 (with_listdir (fun _ => []) sample_world)
      sample_globals_pathlib
      (call (with_listdir (fun _ => []) sample_world)
         sample_globals_pathlib 1) []
  /\ forall training_args tr1 r cs tr2,
      checkpoint_discovery sample_globals_pathlib
        (call (with_listdir (listdir sample_world) sample_world)
           sample_globals_pathlib 1) training_args tr1
      = (Ok (r, cs), tr2) ->
      r = VBool false.
Proof.
  apply (checkpoint_result_never_consulted sample_world sample_globals_pathlib
           1 [] (listdir sample_world) (fun _ => [])).
  - vm_compute. reflexivity.
  - vm_compute. reflexivity.
  - right. vm_compute. reflexivity.
Defined.

(** With [pathlib] imported, the scan of the sample directory finds the two
    checkpoints and the scan of an empty one finds none; [finetune] returns
    [None] after either. *)
Example finetune_sample_with_pathlib :
  checkpoint_discovery sample_globals_pathlib
    (call sample_world sample_globals_pathlib 1) sample_training_args []
  = (Ok (VBool false,
         VList [path_obj "out/checkpoint-500"; path_obj "out/checkpoint-1000"]),
     [EvCall "pathlib.Path"; EvMethod "glob"; EvCall "builtins.list"])
  /\ fst (finetune_l144 sample_world sample_globals_pathlib
            (call sample_world sample_globals_pathlib 1) []) = Ok VNone
  /\ fst (finetune_l144 (with_listdir (fun _ => []) sample_world)
            sample_globals_pathlib
            (call (with_listdir (fun _ => []) sample_world)
               sample_globals_pathlib 1) []) = Ok VNone.
Proof. repeat split; vm_compute; reflexivity. Qed.

(** ** What the statements of the module bind *)





Lemma frames_weaken names names' s :
  frames names s -> (forall n, In n names -> In n names') -> frames names' s.
Proof. intros Hs Hincl g tr g' tr' n Hrun Hn. eapply Hs; eauto. Qed.

Lemma frames_import w m : frames [m] (import_ w m).
Proof.
  intros g tr g' tr' n. unfold import_.
  destruct (lib_import w m); [|discriminate].
  intros [= <- _] Hn. apply lookup_insert_ne. intros ->. apply Hn. now left.
Qed.

Lemma frames_bind_imported w m names : frames names (bind_imported w m names).
Proof.
  induction names as [|x names IH]; intros g tr g' tr' n; simpl.
  - now intros [= <- _].
  - destruct (lib_import w _); [|discriminate].
    intros Hrun Hn. rewrite (IH _ _ _ _ n Hrun) by tauto.
    apply lookup_insert_ne. intros ->. tauto.
Qed.

Lemma frames_from_import w m names : frames names (from_import w m names).
Proof.
  intros g tr g' tr' n. unfold from_import.
  destruct (lib_import w m); [|discriminate]. apply frames_bind_imported.
Qed.

Lemma frames_stmt_l23 w d : frames ["logger"] (stmt_l23 w d).
Proof.
  intros g tr g' tr' n. unfold stmt_l23. intros H Hn.
  repeat (apply bind_inv_ok in H as (? & ? & _ & H)).
  injection H as <- _. apply lookup_insert_ne. intros <-. apply Hn. now left.
Qed.

Lemma frames_stmt_l24 w d : frames [] (stmt_l24 w d).
Proof.
  intros g tr g' tr' n. unfold stmt_l24. intros H Hn.
  repeat (apply bind_inv_ok in H as (? & ? & _ & H)).
  now injection H as <- _.
Qed.

Lemma frames_class_def w d dec name bases body :
  frames [name] (class_def w d dec name bases body).
Proof.
  intros g tr g' tr' n. unfold class_def. intros H Hn.
  repeat (apply bind_inv_ok in H as (? & ? & _ & H)).
  injection H as <- _. apply lookup_insert_ne. intros ->. apply Hn. now left.
Qed.

Lemma frames_def name fid anns : frames [name] (def_ name fid anns).
Proof.
  intros g tr g' tr' n H Hn. apply def_ok in H as [-> _].
  apply lookup_insert_ne. intros ->. apply Hn. now left.
Qed.

Lemma frames_stmt_l169 w d : frames [] (stmt_l169 w d).
Proof.
  intros g tr g' tr' n. unfold stmt_l169. intros H Hn.
  apply bind_inv_ok in H as (v & tr1 & _ & H).
  destruct (eq_str v "__main__").
  - repeat (apply bind_inv_ok in H as (? & ? & _ & H)). now injection H as <- _.
  - now injection H as <- _.
Qed.

Lemma frames_exec names stmts :
  Forall (frames names) stmts -> frames names (exec stmts).
Proof.
  induction 1 as [|s stmts Hs _ IH]; intros g tr g' tr' n; simpl.
  - now intros [= <- _].
  - intros H Hn. apply bind_inv_ok in H as (g1 & tr1 & H1 & H).
    rewrite (IH _ _ _ _ n H Hn). now apply (Hs _ _ _ _ n H1).
Qed.

(** Every statement of the module binds names of the list only. *)
Lemma module_stmts_frames w d :
  Forall (frames module_bound_names) (module_stmts w d).
Proof.
  unfold module_stmts, import_stmts, def_stmts, class_ModelArguments,
    class_DataArguments, class_ModelTrainingArguments,
    class_QuanitzationArguments, class_QloraArguments.
  repeat (apply Forall_cons; split;
    [ eapply frames_weaken;
      [ first [ apply frames_from_import | apply frames_import
              | apply frames_stmt_l23 | apply frames_stmt_l24
              | apply frames_class_def | apply frames_def
              | apply frames_stmt_l169 ]
      | unfold module_bound_names; simpl; intros n Hn; tauto ] |]).
  apply Forall_nil_2.
Qed.

(** The script never binds [pathlib]: any of its statements, run in any
    order from a namespace without the name, leave it unbound. *)
Lemma script_never_binds_pathlib w d stmts g tr g' tr' :
  (forall s, In s stmts -> In s (module_stmts w d)) ->
  g !! "pathlib" = None ->
  exec stmts g tr = (Ok g', tr') ->
  g' !! "pathlib" = None.
Proof.
  intros Hsub Hg Hrun. rewrite <- Hg.
  apply (frames_exec module_bound_names stmts) with (tr := tr) (tr' := tr');
    [|exact Hrun|].
  - apply Forall_forall. intros s Hs.
    apply list_elem_of_In, Hsub in Hs.
    pose proof (module_stmts_frames w d) as H.
    rewrite Forall_forall in H. apply H. now apply list_elem_of_In.
  - unfold module_bound_names. simpl. intros H.
    repeat (destruct H as [H|H]; [discriminate|]). exact H.
Qed.

(** ** The script as a whole *)

Lemma exec_raises_cons s rest g tr :
  (forall g1 tr1, s g tr = (Ok g1, tr1) ->
     exists e tr', exec rest g1 tr1 = (Raise e, tr')) ->
  exists e tr', exec (s :: rest) g tr = (Raise e, tr').
Proof.
  intros H. simpl. unfold bind.
  destruct (s g tr) as [[g1|e] tr1]; [now apply H | eauto].
Qed.

(** The script cannot run to completion: in every world a run of the module
    raises. If nothing fails earlier, line 2 binds [Optional], the statements
    up to line 46 leave that binding alone, and the class statement of lines
    48-60 raises. *)
Lemma run_module_never_completes w d name tr :
  exists e tr', run_module w d name tr = (Raise e, tr').
Proof.
  unfold run_module, module_stmts, import_stmts.
  cbn [app].
  apply exec_raises_cons. intros g1 tr1 H1.
  apply exec_raises_cons. intros g2 tr2 H2.
  assert (HO : g2 !! "Optional" = Some (VExt "typing.Optional")).
  { unfold from_import in H2. destruct (lib_import w "typing"); [|discriminate].
    simpl in H2.
    destruct (lib_import w _); [|discriminate].
    destruct (lib_import w _); [|discriminate].
    injection H2 as <- _.
    rewrite lookup_insert_ne by discriminate. apply lookup_insert_eq. }
  clear H1 H2.
  repeat (apply exec_raises_cons;
    let g' := fresh "g" in let tr' := fresh "tr" in let H := fresh "H" in
    intros g' tr' H;
    first
      [ rewrite <- (frames_import _ _ _ _ _ _ "Optional" H) in HO
          by (simpl; intros [?|[]]; discriminate)
      | rewrite <- (frames_from_import _ _ _ _ _ _ _ "Optional" H) in HO
          by (simpl; intuition discriminate)
      | rewrite <- (frames_stmt_l23 _ _ _ _ _ _ "Optional" H) in HO
          by (simpl; intuition discriminate)
      | rewrite <- (frames_stmt_l24 _ _ _ _ _ _ "Optional" H) in HO
          by (simpl; intuition discriminate)
      | (apply ModelTrainingArguments_class_raises in H; [destruct H|exact HO])
      | rewrite <- (frames_class_def _ _ _ _ _ _ _ _ _ _ "Optional" H) in HO
          by (simpl; intuition discriminate) ];
    clear H).
Qed.

(** * Further properties of the script *)

(** ** The first definition of [finetune] *)

(** The first [finetune] names the class [QuantizationArguments], which the
    script spells [QuanitzationArguments] at line 63. In a namespace that
    does not bind the name, a call stops with a [NameError] before anything
    is called; when the five names before it resolve, the error is for
    [QuantizationArguments]. *)
Theorem finetune_l120_unbound_class g
    (c : value -> list value -> list (string * value) -> M value) tr :
  g !! "QuantizationArguments" = None ->
  (exists n, finetune_l120 g c tr = (Raise (NameError n), tr))
  /\ (is_Some (g !! "HfArgumentParser") -> is_Some (g !! "ModelArguments") ->
      is_Some (g !! "DataArguments") ->
      is_Some (g !! "ModelTrainingArguments") ->
      finetune_l120 g c tr = (Raise (NameError "QuantizationArguments"), tr)).
Proof.
  intros Hq. split.
  - unfold finetune_l120, bind, global_. rewrite Hq.
    destruct (g !! "HfArgumentParser"), (g !! "ModelArguments"),
      (g !! "DataArguments"), (g !! "ModelTrainingArguments");
      cbn [is_builtin existsb]; eauto.
  - intros [v0 H0] [v1 H1] [v2 H2] [v3 H3].
    unfold finetune_l120, bind, global_. now rewrite H0, H1, H2, H3, Hq.
Qed.

Lemma finetune_l120_unbound_class_witness :
  (exists n,
      finetune_l120 sample_globals (call sample_world sample_globals 1) []
      = (Raise (NameError n), []))
  /\ (is_Some (sample_globals !! "HfArgumentParser") ->
      is_Some (sample_globals !! "ModelArguments") ->
      is_Some (sample_globals !! "DataArguments") ->
      is_Some (sample_globals !! "ModelTrainingArguments") ->
      finetune_l120 sample_globals (call sample_world sample_globals 1) []
      = (Raise (NameError "QuantizationArguments"), [])).
Proof.
  apply (finetune_l120_unbound_class sample_globals
           (call sample_world sample_globals 1) []).
  vm_compute. reflexivity.
Defined.

(** ** The names the script binds *)

(** The statements of the module, run in any selection and order, leave
    every name outside the list of 29 as it was: the script binds neither
    [pathlib] nor [QuantizationArguments], nor rebinds [list] or
    [__name__]. *)
Theorem module_binds_only_listed_names w d stmts g tr g' tr' n :
  (forall s, In s stmts -> In s (module_stmts w d)) ->
  ~ In n module_bound_names ->
  exec stmts g tr = (Ok g', tr') ->
  g' !! n = g !! n.
Proof.
  intros Hsub Hn Hrun.
  apply (frames_exec module_bound_names stmts) with (tr := tr) (tr' := tr');
    [|exact Hrun|exact Hn].
  apply Forall_forall. intros s Hs.
  apply list_elem_of_In, Hsub in Hs.
  pose proof (module_stmts_frames w d) as H.
  rewrite Forall_forall in H. apply H. now apply list_elem_of_In.
Qed.

Lemma module_binds_only_listed_names_witness :
  (<["finetune" := VFunc F_finetune_l120]> (initial_globals "__main__"))
    !! "QuantizationArguments"
  = initial_globals "__main__" !! "QuantizationArguments".
Proof.
  apply (module_binds_only_listed_names sample_world 1
           [def_ "finetune" F_finetune_l120 []]
           (initial_globals "__main__") []
           (<["finetune" := VFunc F_finetune_l120]> (initial_globals "__main__"))
           [] "QuantizationArguments").
  - intros s [<-|[]]. unfold module_stmts, def_stmts.
    apply in_or_app. right. apply in_or_app. right. apply in_or_app. left.
    simpl. tauto.
  - unfold module_bound_names. simpl. intros H.
    repeat (destruct H as [H|H]; [discriminate|]). exact H.
  - reflexivity.
Defined.

(** ** Checkpoint discovery when [pathlib] is bound *)



(** ** The import statements *)

Lemma exec_app l1 l2 g tr :
  exec (l1 ++ l2) g tr = bind (exec l1 g) (exec l2) tr.
Proof.
  revert g tr. induction l1 as [|s l1 IH]; intros g tr; simpl.
  - reflexivity.
  - rewrite bind_assoc. apply bind_cong. intros g1 tr1. apply IH.
Qed.

Lemma import_cases w m g tr :
  (lib_import w m = false /\ import_ w m g tr = (Raise (ImportError m), tr))
  \/ (lib_import w m = true
      /\ import_ w m g tr = (Ok (<[m := VExt m]> g), tr)).
Proof. unfold import_. destruct (lib_import w m); auto. Qed.

Lemma bind_imported_cases w m names : forall g tr,
  (exists n, In n names /\ lib_import w (qualified m n) = false
     /\ bind_imported w m names g tr
        = (Raise (ImportError (qualified m n)), tr))
  \/ ((forall n, In n names -> lib_import w (qualified m n) = true)
      /\ bind_imported w m names g tr = (Ok (bind_names m names g), tr)).
Proof.
  induction names as [|x names IH]; intros g tr; simpl.
  - right. split; [intros n []|reflexivity].
  - fold (qualified m x). destruct (lib_import w (qualified m x)) eqn:Ex.
    + destruct (IH (<[x := VExt (qualified m x)]> g) tr)
        as [(n & Hn & Hf & Hr)|[Hall Hr]].
      * left. exists n. auto.
      * right. split; [|exact Hr]. intros n [<-|Hn]; auto.
    + left. exists x. auto.
Qed.

Lemma from_import_cases w m names g tr :
  (exists q, In q (m :: map (qualified m) names) /\ lib_import w q = false
     /\ from_import w m names g tr = (Raise (ImportError q), tr))
  \/ ((forall q, In q (m :: map (qualified m) names) -> lib_import w q = true)
      /\ from_import w m names g tr = (Ok (bind_names m names g), tr)).
Proof.
  unfold from_import. destruct (lib_import w m) eqn:Em.
  - destruct (bind_imported_cases w m names g tr)
      as [(n & Hn & Hf & Hr)|[Hall Hr]].
    + left. exists (qualified m n). repeat split; [|assumption..].
      right. now apply in_map.
    + right. split; [|exact Hr]. intros q [<-|Hq]; [assumption|].
      apply in_map_iff in Hq as (n & <- & Hn). now apply Hall.
  - left. exists m. repeat split; [now left|assumption].
Qed.

Lemma import_run_import w m req rest g gf tr :
  import_run (lib_import w) req rest (<[m := VExt m]> g) gf tr ->
  import_run (lib_import w) (m :: req) (import_ w m :: rest) g gf tr.
Proof.
  unfold import_run. intros Hrest.
  destruct (import_cases w m g tr) as [[Hf Hr]|[Ht Hr]].
  - left. exists m. split; [now left|]. split; [exact Hf|].
    simpl. now rewrite (bind_fail _ _ _ _ _ Hr).
  - rewrite (exec_cons_run _ _ _ _ _ _ Hr).
    destruct Hrest as [(q & Hq & Hf & Hx)|[Hall Hx]].
    + left. exists q. split; [now right|]. now split.
    + right. split; [|exact Hx]. intros q [<-|Hq]; auto.
Qed.

Lemma import_run_from w m names req rest g gf tr :
  import_run (lib_import w) req rest (bind_names m names g) gf tr ->
  import_run (lib_import w) ((m :: map (qualified m) names) ++ req)
    (from_import w m names :: rest) g gf tr.
Proof.
  unfold import_run. intros Hrest.
  destruct (from_import_cases w m names g tr) as [(q & Hq & Hf & Hr)|[Ht Hr]].
  - left. exists q. split; [apply in_or_app; now left|]. split; [exact Hf|].
    simpl. now rewrite (bind_fail _ _ _ _ _ Hr).
  - rewrite (exec_cons_run _ _ _ _ _ _ Hr).
    destruct Hrest as [(q & Hq & Hf & Hx)|[Hall Hx]].
    + left. exists q. split; [apply in_or_app; now right|]. now split.
    + right. split; [|exact Hx].
      intros q Hq. apply in_app_or in Hq as [Hq|Hq]; auto.
Qed.

(** Lines 1-21 either stop at the first thing that cannot be imported, with
    the trace untouched, or find everything and leave [after_imports]. *)
Lemma import_stmts_cases w g tr :
  import_run (lib_import w) required_imports (import_stmts w) g
    (after_imports g) tr.
Proof.
  unfold import_stmts, after_imports.
  apply (import_run_from w "dataclasses" ["dataclass"; "field"]).
  apply (import_run_from w "typing" ["Optional"; "Dict"]).
  apply (import_run_import w "logging").
  apply (import_run_import w "nvidia_smi").
  apply (import_run_import w "torch").
  apply (import_run_from w "datasets" ["load_dataset"]).
  apply (import_run_from w "transformers"
           [ "AutoModelForCausalLM"; "AutoTokenizer"; "PreTrainedTokenizer";
             "BitsAndBytesConfig"; "HfArgumentParser"; "Trainer";
             "TrainingArguments" ]).
  apply (import_run_from w "peft" ["LoraConfig"; "AutoPeftModelForCausalLM"]).
  apply (import_run_from w "trl" ["SFTTrainer"] []).
  right. split; [intros q []|reflexivity].
Qed.


(** When a module of lines 1-21, or a name taken from one, cannot be
    imported, the run of the script stops with an [ImportError] for
    something that is missing, before any library is called: the trace is
    untouched. This holds for modules the script never uses afterwards, such
    as [nvidia_smi]. *)
Theorem missing_import_stops_script w d name tr q0 :
  In q0 required_imports ->
  lib_import w q0 = false ->
  exists q,
    In q required_imports /\ lib_import w q = false
    /\ run_module w d name tr = (Raise (ImportError q), tr).
Proof.
  intros Hq0 Hf0. unfold run_module, module_stmts. rewrite exec_app.
  destruct (import_stmts_cases w (initial_globals name) tr)
    as [(q & Hq & Hf & Hr)|[Hall _]].
  - exists q. split; [exact Hq|]. split; [exact Hf|].
    now rewrite (bind_fail _ _ _ _ _ Hr).
  - rewrite (Hall q0 Hq0) in Hf0. discriminate.
Qed.

Lemma missing_import_stops_script_witness :
  exists q,
    In q required_imports
    /\ lib_import (without_import "nvidia_smi" sample_world) q = false
    /\ run_module (without_import "nvidia_smi" sample_world) 10 "__main__" []
       = (Raise (ImportError q), []).
Proof.
  apply (missing_import_stops_script (without_import "nvidia_smi" sample_world)
           10 "__main__" [] "nvidia_smi").
  - unfold required_imports. simpl. tauto.
  - reflexivity.
Defined.

Lemma after_imports_lookup g n q :
  In (n, q) imported_bindings -> after_imports g !! n = Some (VExt q).
Proof.
  intros Hin. unfold imported_bindings in Hin. simpl in Hin.
  unfold after_imports, bind_names, qualified. cbn [fold_left].
  repeat (destruct Hin as [[= <- <-]|Hin];
          [repeat (rewrite lookup_insert_ne by discriminate);
           now rewrite lookup_insert_eq|]).
  destruct Hin.
Qed.

(** When lines 1-21 complete, they have called nothing, everything they ask
    for could be imported, and each of the eighteen names they bind denotes
    the library object of its qualified name: [Optional] is
    [typing.Optional], [BitsAndBytesConfig] is
    [transformers.BitsAndBytesConfig], and so on. *)
Theorem imports_bind_library_objects w g tr g' tr' :
  exec (import_stmts w) g tr = (Ok g', tr') ->
  tr' = tr
  /\ (forall n q, In (n, q) imported_bindings -> g' !! n = Some (VExt q))
  /\ (forall q, In q required_imports -> lib_import w q = true).
Proof.
  intros Hrun.
  destruct (import_stmts_cases w g tr) as [(q & _ & _ & Hr)|[Hall Hr]];
    rewrite Hr in Hrun; [discriminate|].
  injection Hrun as <- <-. split; [reflexivity|]. split; [|exact Hall].
  intros n q. apply after_imports_lookup.
Qed.

Lemma sample_imports_run :
  exec (import_stmts sample_world) (initial_globals "__main__") []
  = (Ok (after_imports (initial_globals "__main__")), []).
Proof.
  destruct (import_stmts_cases sample_world (initial_globals "__main__") [])
    as [(q & _ & Hf & _)|[_ Hr]]; [discriminate|exact Hr].
Qed.

Lemma imports_bind_library_objects_witness :
  [] = ([] : list event)
  /\ (forall n q, In (n, q) imported_bindings ->
        after_imports (initial_globals "__main__") !! n = Some (VExt q))
  /\ (forall q, In q required_imports -> lib_import sample_world q = true).
Proof.
  apply (imports_bind_library_objects sample_world
           (initial_globals "__main__") []
           (after_imports (initial_globals "__main__")) []).
  exact sample_imports_run.
Defined.

(** ** What the statements of the module can reach *)

Lemma confined_allowed_mono {A} allowed allowed' (P : A -> Prop) m :
  confined allowed P m -> (forall f, In f allowed -> In f allowed') ->
  confined allowed' P m.
Proof.
  intros Hm Hincl tr r tr' Hrun.
  destruct (Hm _ _ _ Hrun) as (evs & -> & H & HP).
  exists evs. repeat split; auto.
Qed.

Lemma clean_empty : clean_class empty_class.
Proof. split; reflexivity. Qed.

Lemma clean_store ns n v :
  clean_class ns -> func_free v = true -> clean_class (store ns n v).
Proof. intros [H1 H2] Hv. split; [now apply assoc_set_ff|exact H2]. Qed.

Lemma clean_annotate ns n v :
  clean_class ns -> func_free v = true -> clean_class (annotate ns n v).
Proof. intros [H1 H2] Hv. split; [exact H1|now apply assoc_set_ff]. Qed.

Lemma class_dict_ff ns : clean_class ns -> ffk (class_dict ns).
Proof.
  intros [H1 H2]. unfold ffk, class_dict in *. rewrite forallb_app, H1.
  simpl. unfold ffk in H2. now rewrite H2.
Qed.

Section TopLevelReach.
Variable w : world.
Variable d : nat.
Hypothesis Hw : lib_closed w.
Variable allowed : list func_id.

Lemma name__confined ns g name :
  clean_class ns -> module_like g -> (forall fid, def_name fid <> name) ->
  confined allowed (fun v => func_free v = true) (name_ ns g name).
Proof.
  intros [Hns _] Hg Hn. unfold name_.
  destruct (assoc name (cattrs ns)) as [v|] eqn:E.
  - apply confined_ret. now apply (assoc_ff name (cattrs ns)).
  - now apply global_plain.
Qed.

Lemma getitem_confined o i :
  confined allowed (fun v => func_free v = true) (getitem w o i).
Proof.
  destruct o; simpl; try apply confined_raise;
    now apply world_method_confined.
Qed.

Lemma setitem_confined o i v :
  confined allowed (fun _ => True) (setitem w o i v).
Proof.
  destruct o; simpl; try apply confined_raise;
    try (eapply confined_bind; [now apply world_method_confined|];
         intros _ _; now apply confined_ret).
  destruct (is_typing_form qualname); [apply confined_raise|].
  eapply confined_bind; [now apply world_method_confined|].
  intros _ _. now apply confined_ret.
Qed.

Lemma field__confined ns g default metadata :
  clean_class ns -> module_like g ->
  confined allowed (fun v => func_free v = true) default ->
  ffk metadata ->
  confined allowed (fun v => func_free v = true)
    (field_ w d ns g default metadata).
Proof.
  intros Hns Hg Hd Hm. unfold field_.
  eapply confined_bind;
    [apply name__confined; [assumption..|intros []; discriminate]|].
  intros f Hf.
  eapply confined_bind; [exact Hd|]. intros v Hv.
  apply call_ff_confined; [assumption..|reflexivity|].
  unfold ffk in *. simpl. cbv beta in Hv. now rewrite Hv, Hm.
Qed.

Lemma subscript_confined ns g a b :
  clean_class ns -> module_like g ->
  (forall fid, def_name fid <> a) -> (forall fid, def_name fid <> b) ->
  confined allowed (fun v => func_free v = true) (subscript w ns g a b).
Proof.
  intros Hns Hg Ha Hb. unfold subscript.
  eapply confined_bind; [now apply name__confined|]. intros o _.
  eapply confined_bind; [now apply name__confined|]. intros i _.
  apply getitem_confined.
Qed.

Lemma attribute_confined ns g a b :
  clean_class ns -> module_like g -> (forall fid, def_name fid <> a) ->
  confined allowed (fun v => func_free v = true) (attribute ns g a b).
Proof.
  intros Hns Hg Ha. unfold attribute.
  eapply confined_bind; [now apply name__confined|]. intros o Ho.
  now apply getattr_confined.
Qed.

Ltac clean :=
  repeat first
    [ assumption
    | apply clean_empty
    | apply clean_store
    | apply clean_annotate ].

Ltac plain_name := intros []; discriminate.

Ltac body_step :=
  cbv zeta;
  first
    [ apply confined_ret; clean
    | eapply confined_bind;
      [ first
          [ apply field__confined;
            [ clean | assumption
            | first [ now apply confined_ret
                    | apply attribute_confined; [clean|assumption|plain_name] ]
            | reflexivity ]
          | apply subscript_confined; [clean|assumption|plain_name|plain_name]
          | apply attribute_confined; [clean|assumption|plain_name]
          | apply name__confined; [clean|assumption|plain_name]
          | apply setitem_confined ]
      | intros ? ? ] ].

Lemma body_ModelArguments_confined g :
  module_like g -> confined allowed clean_class (body_ModelArguments w d g).
Proof. intros Hg. unfold body_ModelArguments. repeat body_step. Qed.

Lemma body_DataArguments_confined g :
  module_like g -> confined allowed clean_class (body_DataArguments w d g).
Proof. intros Hg. unfold body_DataArguments. repeat body_step. Qed.

Lemma body_ModelTrainingArguments_confined g :
  module_like g ->
  confined allowed clean_class (body_ModelTrainingArguments w d g).
Proof. intros Hg. unfold body_ModelTrainingArguments. repeat body_step. Qed.

Lemma body_QuanitzationArguments_confined g :
  module_like g ->
  confined allowed clean_class (body_QuanitzationArguments w d g).
Proof. intros Hg. unfold body_QuanitzationArguments. repeat body_step. Qed.

Lemma body_QloraArguments_confined g :
  module_like g -> confined allowed clean_class (body_QloraArguments w d g).
Proof. intros Hg. unfold body_QloraArguments. repeat body_step. Qed.

Lemma mapM_global_confined g names :
  module_like g ->
  (forall n, In n names -> forall fid, def_name fid <> n) ->
  confined allowed ffs (mapM (global_ g) names).
Proof.
  intros Hg. induction names as [|n names IH]; intros Hn; simpl.
  - now apply confined_ret.
  - eapply confined_bind; [apply global_plain; [assumption|]|].
    { apply Hn. now left. }
    intros v Hv.
    eapply confined_bind; [apply IH; intros; apply Hn; now right|].
    intros vs Hvs. apply confined_ret. unfold ffs in *. simpl.
    cbv beta in Hv. now rewrite Hv, Hvs.
Qed.

Lemma mapM_global_any g names :
  module_like g -> confined allowed (fun _ => True) (mapM (global_ g) names).
Proof.
  intros Hg. induction names as [|n names IH]; simpl.
  - now apply confined_ret.
  - eapply confined_bind; [now apply global_confined|]. intros v _.
    eapply confined_bind; [exact IH|]. intros vs _. now apply confined_ret.
Qed.

Lemma keeps_class_def dec name bases body :
  (forall fid, def_name fid <> dec) ->
  (forall fid, def_name fid <> name) ->
  (forall n, In n bases -> forall fid, def_name fid <> n) ->
  (forall g, module_like g -> confined allowed clean_class (body g)) ->
  keeps allowed (class_def w d dec name bases body).
Proof.
  intros Hdec Hname Hbases Hbody g Hg. unfold class_def.
  eapply confined_bind; [now apply global_plain|]. intros dv Hdv.
  eapply confined_bind; [now apply mapM_global_confined|]. intros bs Hbs.
  eapply confined_bind; [now apply Hbody|]. intros ns Hns.
  eapply confined_bind.
  { apply call_ff_confined; [assumption..| |reflexivity].
    unfold ffs. simpl. unfold ffs in Hbs. rewrite Hbs.
    pose proof (class_dict_ff ns Hns) as Hd. unfold ffk in Hd.
    now rewrite Hd. }
  intros c Hc. apply confined_ret. apply module_like_insert_ff; assumption.
Qed.

Lemma keeps_import m : keeps allowed (import_ w m).
Proof.
  intros g Hg. unfold import_.
  destruct (lib_import w m); [|apply confined_raise].
  apply confined_ret. now apply module_like_insert_ff.
Qed.

Lemma keeps_bind_imported m names : keeps allowed (bind_imported w m names).
Proof.
  induction names as [|n names IH]; intros g Hg; simpl.
  - now apply confined_ret.
  - destruct (lib_import w _); [|apply confined_raise].
    apply IH. now apply module_like_insert_ff.
Qed.

Lemma keeps_from_import m names : keeps allowed (from_import w m names).
Proof.
  intros g Hg. unfold from_import.
  destruct (lib_import w m); [|apply confined_raise].
  now apply keeps_bind_imported.
Qed.

Lemma keeps_stmt_l23 : keeps allowed (stmt_l23 w d).
Proof.
  intros g Hg. unfold stmt_l23.
  eapply confined_bind; [apply global_plain; [assumption|plain_name]|].
  intros l Hl.
  eapply confined_bind; [now apply getattr_confined|]. intros f Hf.
  eapply confined_bind; [apply global_plain; [assumption|plain_name]|].
  intros n Hn.
  eapply confined_bind.
  { apply call_ff_confined; [assumption..| |reflexivity].
    unfold ffs. simpl. cbv beta in Hn. now rewrite Hn. }
  intros lg Hlg. apply confined_ret. now apply module_like_insert_ff.
Qed.

Lemma keeps_stmt_l24 : keeps allowed (stmt_l24 w d).
Proof.
  intros g Hg. unfold stmt_l24.
  eapply confined_bind; [apply global_plain; [assumption|plain_name]|].
  intros l Hl.
  eapply confined_bind; [now apply getattr_confined|]. intros f Hf.
  eapply confined_bind; [apply global_plain; [assumption|plain_name]|].
  intros lg Hlg.
  eapply confined_bind; [now apply getattr_confined|]. intros i Hi.
  eapply confined_bind.
  { apply call_ff_confined; [assumption..| |reflexivity].
    unfold ffs. simpl. cbv beta in Hi. now rewrite Hi. }
  intros _ _. now apply confined_ret.
Qed.

Lemma keeps_def fid anns : keeps allowed (def_ (def_name fid) fid anns).
Proof.
  intros g Hg. unfold def_.
  eapply confined_bind; [now apply mapM_global_any|]. intros _ _.
  apply confined_ret. now apply module_like_insert.
Qed.

End TopLevelReach.

Lemma keeps_stmt_l169 w d allowed :
  lib_closed w ->
  (forall f, In f reachable_functions -> In f allowed) ->
  keeps allowed (stmt_l169 w d).
Proof.
  intros Hw Hall g Hg. unfold stmt_l169.
  eapply confined_bind; [now apply global_confined|]. intros n _.
  destruct (eq_str n "__main__"); [|now apply confined_ret].
  eapply confined_bind; [now apply global_confined|].
  intros f [Hf|(fid & -> & Hd)].
  - eapply confined_bind;
      [apply call_ff_confined; [assumption..|reflexivity|reflexivity]|].
    intros _ _. now apply confined_ret.
  - apply (confined_bind allowed (fun _ : value => True));
      [|intros _ _; now apply confined_ret].
    destruct fid; try discriminate.
    + eapply confined_allowed_mono; [now apply call_l120_confined|].
      intros f [<-|[]]. apply Hall. simpl. auto.
    + eapply confined_allowed_mono; [now apply call_l144_confined|].
      intros f Hf. apply Hall. simpl in *. tauto.
Qed.

Lemma exec_keeps allowed stmts :
  Forall (keeps allowed) stmts -> keeps allowed (exec stmts).
Proof.
  induction 1 as [|s stmts Hs _ IH]; intros g Hg; simpl.
  - now apply confined_ret.
  - eapply confined_bind; [now apply Hs|]. intros g1 Hg1. now apply IH.
Qed.

Lemma initial_globals_module_like name : module_like (initial_globals name).
Proof.
  unfold initial_globals.
  apply module_like_insert_ff; [reflexivity|].
  apply module_like_insert_ff; [reflexivity|].
  intros n v H. now rewrite lookup_empty in H.
Qed.

(** The statements of lines 1-46 enter no function of the module. *)
Lemma early_stmts_keep w d allowed :
  lib_closed w ->
  Forall (keeps allowed)
    (import_stmts w
     ++ [ stmt_l23 w d; stmt_l24 w d; class_ModelArguments w d;
          class_DataArguments w d ])%list.
Proof.
  intros Hw. unfold import_stmts, class_ModelArguments, class_DataArguments.
  repeat (apply Forall_cons; split;
    [ first
        [ apply keeps_from_import | apply keeps_import
        | now apply keeps_stmt_l23 | now apply keeps_stmt_l24
        | apply keeps_class_def;
          [ assumption | intros []; discriminate | intros []; discriminate
          | intros n []
          | intros g Hg;
            first [ now apply body_ModelArguments_confined
                  | now apply body_DataArguments_confined ] ] ] |]).
  apply Forall_nil_2.
Qed.

Lemma keeps_class_ModelTrainingArguments w d allowed :
  lib_closed w -> keeps allowed (class_ModelTrainingArguments w d).
Proof.
  intros Hw. apply keeps_class_def;
    [ assumption | intros []; discriminate | intros []; discriminate
    | intros n [<-|[]] []; discriminate
    | intros g Hg; now apply body_ModelTrainingArguments_confined ].
Qed.

(** Every statement of the module keeps the functions under their names and
    enters at most the four [reachable_functions]. *)
Lemma module_stmts_keep w d :
  lib_closed w -> Forall (keeps reachable_functions) (module_stmts w d).
Proof.
  intros Hw. unfold module_stmts. apply Forall_app. split.
  - pose proof (early_stmts_keep w d reachable_functions Hw) as H.
    now apply Forall_app in H as [H _].
  - apply Forall_app. split; [|apply Forall_app; split].
    + pose proof (early_stmts_keep w d reachable_functions Hw) as H.
      apply Forall_app in H as [_ H].
      repeat (apply Forall_cons in H as [? H]).
      repeat (apply Forall_cons; split; [assumption|]).
      apply Forall_cons; split;
        [now apply keeps_class_ModelTrainingArguments|].
      unfold class_QuanitzationArguments, class_QloraArguments.
      repeat (apply Forall_cons; split;
        [ apply keeps_class_def;
          [ assumption | intros []; discriminate | intros []; discriminate
          | intros n [<-|[]] []; discriminate
          | intros g Hg;
            first [ now apply body_QuanitzationArguments_confined
                  | now apply body_QloraArguments_confined ] ] |]).
      apply Forall_nil_2.
    + unfold def_stmts.
      repeat (apply Forall_cons; split;
        [ first
            [ apply (keeps_def reachable_functions
                       F_safe_save_model_for_hf_trainer)
            | apply (keeps_def reachable_functions F_preprocess_data)
            | apply (keeps_def reachable_functions F_finetune_l120)
            | apply (keeps_def reachable_functions F_build_bnb_config)
            | apply (keeps_def reachable_functions F_build_lora_config)
            | apply (keeps_def reachable_functions F_finetune_l144) ] |]).
      apply Forall_nil_2.
    + apply Forall_cons. split; [|apply Forall_nil_2].
      now apply keeps_stmt_l169.
Qed.

(** With libraries that hold no function of the module, the statements of
    the script, run in any selection and order from a namespace that binds
    the functions under their own names only, keep it so, and whatever they
    call they enter at most the two definitions of [finetune] and the two
    configuration builders: [safe_save_model_for_hf_trainer] and
    [preprocess_data] are never run by the script. *)
Theorem script_keeps_functions_under_their_names w d stmts g tr r tr' :
  lib_closed w ->
  (forall s, In s stmts -> In s (module_stmts w d)) ->
  module_like g ->
  exec stmts g tr = (r, tr') ->
  exists evs,
    tr' = (tr ++ evs)%list
    /\ (forall f, In f (entered evs) -> In f reachable_functions)
    /\ (forall g', r = Ok g' -> module_like g').
Proof.
  intros Hw Hsub Hg Hrun.
  apply (exec_keeps reachable_functions stmts) with (g := g); [|assumption..].
  apply Forall_forall. intros s Hs.
  apply list_elem_of_In, Hsub in Hs.
  pose proof (module_stmts_keep w d Hw) as H.
  rewrite Forall_forall in H. apply H. now apply list_elem_of_In.
Qed.

Lemma repaired_stmts_in_module w d s :
  In s (repaired_stmts w d) -> In s (module_stmts w d).
Proof.
  unfold repaired_stmts, module_stmts. intros H.
  apply in_app_or in H as [H|H]; apply in_or_app; [now left|right].
  apply in_app_or in H as [H|H]; apply in_or_app.
  - left. simpl in *. tauto.
  - right. apply in_or_app. now left.
Qed.

Lemma script_keeps_functions_under_their_names_witness :
  exists evs,
    snd (exec (repaired_stmts sample_world 10) (initial_globals "__main__") [])
    = ([] ++ evs)%list
    /\ (forall f, In f (entered evs) -> In f reachable_functions)
    /\ (forall g',
          fst (exec (repaired_stmts sample_world 10)
                 (initial_globals "__main__") []) = Ok g' ->
          module_like g').
Proof.
  apply (script_keeps_functions_under_their_names sample_world 10
           (repaired_stmts sample_world 10) (initial_globals "__main__") []).
  - exact sample_world_closed.
  - exact (repaired_stmts_in_module sample_world 10).
  - exact (initial_globals_module_like "__main__").
  - apply surjective_pairing.
Defined.

Lemma early_classes_frame w d :
  frames ["logger"; "ModelArguments"; "DataArguments"]
    (exec [ stmt_l23 w d; stmt_l24 w d; class_ModelArguments w d;
            class_DataArguments w d ]).
Proof.
  apply frames_exec. unfold class_ModelArguments, class_DataArguments.
  repeat (apply Forall_cons; split;
    [ eapply frames_weaken;
      [ first [ apply frames_stmt_l23 | apply frames_stmt_l24
              | apply frames_class_def ]
      | simpl; tauto ] |]).
  apply Forall_nil_2.
Qed.

(** With libraries that hold no function of the module, a run of the script
    enters none of the functions it defines: it raises, at line 53 at the
    latest, having made library calls only. *)
Theorem run_module_enters_no_function w d name tr :
  lib_closed w ->
  exists e evs,
    run_module w d name tr = (Raise e, (tr ++ evs)%list)
    /\ entered evs = [].
Proof.
  intros Hw.
  assert (Hnone : forall evs, (forall f, In f (entered evs) -> In f []) ->
                              entered evs = []).
  { intros evs H. destruct (entered evs) as [|f l]; [reflexivity|].
    destruct (H f). now left. }
  unfold run_module.
  change (module_stmts w d) with
    ((import_stmts w
      ++ [ stmt_l23 w d; stmt_l24 w d; class_ModelArguments w d;
           class_DataArguments w d ])
     ++ class_ModelTrainingArguments w d
        :: ([ class_QuanitzationArguments w d; class_QloraArguments w d ]
            ++ def_stmts ++ [ stmt_l169 w d ]))%list.
  rewrite exec_app.
  pose proof (exec_keeps [] _ (early_stmts_keep w d [] Hw)
                (initial_globals name) (initial_globals_module_like name))
    as Hearly.
  unfold bind.
  destruct (exec _ (initial_globals name) tr) as [[g1|e] tr1] eqn:E1.
  - destruct (Hearly _ _ _ E1) as (evs1 & -> & Hin1 & Hg1).
    specialize (Hg1 g1 eq_refl).
    assert (HO : g1 !! "Optional" = Some (VExt "typing.Optional")).
    { rewrite exec_app in E1. apply bind_inv_ok in E1 as (g0 & tr0 & E0 & E1).
      destruct (import_stmts_cases w (initial_globals name) tr)
        as [(q & _ & _ & Hr)|[_ Hr]]; rewrite Hr in E0; [discriminate|].
      injection E0 as <- <-.
      rewrite (early_classes_frame w d _ _ _ _ "Optional" E1)
        by (simpl; intuition discriminate).
      apply after_imports_lookup. unfold imported_bindings. simpl. tauto. }
    destruct (class_ModelTrainingArguments_stops w d g1 (tr ++ evs1)%list HO)
      as (_ & e & tr2 & E2).
    destruct (keeps_class_ModelTrainingArguments w d [] Hw g1 Hg1 _ _ _ E2)
      as (evs2 & -> & Hin2 & _).
    exists e, (evs1 ++ evs2)%list. split.
    + simpl. rewrite (bind_fail _ _ _ _ _ E2). now rewrite app_assoc.
    + rewrite entered_app, (Hnone _ Hin1), (Hnone _ Hin2). reflexivity.
  - destruct (Hearly _ _ _ E1) as (evs1 & -> & Hin1 & _).
    exists e, evs1. split; [reflexivity|now apply Hnone].
Qed.

Lemma run_module_enters_no_function_witness :
  exists e evs,
    run_module sample_world 10 "__main__" [] = (Raise e, ([] ++ evs)%list)
    /\ entered evs = [].
Proof.
  apply (run_module_enters_no_function sample_world 10 "__main__" []).
  exact sample_world_closed.
Defined.

(** ** What lines 145-160 hand on *)

Lemma assoc_set_same {A} k (v : A) l : assoc k (assoc_set k v l) = Some v.
Proof.
  induction l as [|[k' v'] l IH]; simpl.
  - now rewrite String.eqb_refl.
  - destruct (String.eqb k k') eqn:E; simpl; rewrite ?String.eqb_refl, ?E;
      auto.
Qed.

Lemma assoc_set_other {A} k k' (v : A) l :
  k <> k' -> assoc k' (assoc_set k v l) = assoc k' l.
Proof.
  intros Hne. induction l as [|[k0 v0] l IH]; simpl.
  - destruct (String.eqb k' k) eqn:E; [|reflexivity].
    apply String.eqb_eq in E. congruence.
  - destruct (String.eqb k k0) eqn:E; simpl.
    + apply String.eqb_eq in E as <-.
      destruct (String.eqb k' k) eqn:E'; [|reflexivity].
      apply String.eqb_eq in E'. congruence.
    + now rewrite IH.
Qed.

Lemma sample_setup_run :
  finetune_l144_setup sample_world sample_globals
    (call sample_world sample_globals 1) []
  = (Ok sample_locals, snd sample_setup).
Proof.
  assert (H : is_ok (fst sample_setup) = true) by (vm_compute; reflexivity).
  unfold sample_locals. fold sample_setup.
  destruct sample_setup as [[l|e] tr]; [reflexivity|discriminate].
Qed.

(** When lines 145-160 complete with a tokenizer object that stores its
    [eos_token], the tokenizer's [pad_token] is that same value: line 160
    has taken effect, whatever the libraries answered. *)
Theorem setup_pads_with_eos w g
    (c : value -> list value -> list (string * value) -> M value)
    tr l tr' cls attrs e :
  finetune_l144_setup w g c tr = (Ok l, tr') ->
  l_tokenizer l = VObj cls attrs ->
  assoc "eos_token" attrs = Some e ->
  assoc "pad_token" attrs = Some e.
Proof.
  unfold finetune_l144_setup. intros H Htok He.
  do 9 (apply bind_inv_ok in H as (? & ? & _ & H)).
  apply bind_inv_ok in H as (t & tr10 & _ & H).
  destruct t as [[[[model_args data_args] training_args] quant_args] qlora_args].
  do 11 (apply bind_inv_ok in H as (? & ? & _ & H)).
  apply bind_inv_ok in H as (tok0 & tr22 & _ & H).
  apply bind_inv_ok in H as (eos & tr23 & Heos & H).
  apply bind_inv_ok in H as (tok & tr24 & Hset & H).
  injection H as <- _. simpl in Htok. subst tok.
  destruct tok0; simpl in Hset; try discriminate;
    try (apply bind_inv_ok in Hset as (? & ? & _ & Hset); discriminate).
  injection Hset as <- <- _.
  rewrite assoc_set_other in He by discriminate.
  simpl in Heos. rewrite He in Heos. injection Heos as <- _.
  apply assoc_set_same.
Qed.

Lemma setup_pads_with_eos_witness :
  assoc "pad_token" [("eos_token", VStr "</s>"); ("pad_token", VStr "</s>")]
  = Some (VStr "</s>").
Proof.
  apply (setup_pads_with_eos sample_world sample_globals
           (call sample_world sample_globals 1) [] sample_locals
           (snd sample_setup) "LlamaTokenizer"
           [("eos_token", VStr "</s>"); ("pad_token", VStr "</s>")]
           (VStr "</s>")).
  - exact sample_setup_run.
  - vm_compute. reflexivity.
  - reflexivity.
Defined.

Lemma getattr_pure o name tr r tr' :
  getattr o name tr = (r, tr') ->
  tr' = tr /\ forall tr0, getattr o name tr0 = (r, tr0).
Proof.
  destruct o; simpl;
    repeat match goal with
           | |- context [match ?x with _ => _ end] => destruct x
           end;
    intros [= <- <-]; auto.
Qed.

(** When lines 145-160 complete, in a namespace with the script's bindings
    for [BitsAndBytesConfig], [build_bnb_config] and [AutoModelForCausalLM],
    the configuration in [bnb_config] is the one [build_bnb_config] makes of
    the parsed quantization arguments, with the compute dtype in the
    quant-type field, and the model is the library's answer to
    [from_pretrained] for the parsed model name with that very
    configuration as [quantization_config] and [device_map] "auto". *)
Theorem setup_loads_model_with_built_config w g d tr l tr'
    (q : QuanitzationArguments) :
  g !! "BitsAndBytesConfig" = Some (VExt "transformers.BitsAndBytesConfig") ->
  g !! "build_bnb_config" = Some (VFunc F_build_bnb_config) ->
  g !! "AutoModelForCausalLM"
  = Some (VExt "transformers.AutoModelForCausalLM") ->
  finetune_l144_setup w g (call w g (S d)) tr = (Ok l, tr') ->
  l_quant_args l = quant_obj q ->
  l_bnb_config l
  = VObj "transformers.BitsAndBytesConfig"
      [ ("load_in_4bit", load_in_4bit q);
        ("bnb_4bit_quant_type", bnb_4bit_compute_dtype q);
        ("bnb_4bit_compute_dtype", bnb_4bit_compute_dtype q) ]
  /\ exists n,
      getattr (l_model_args l) "model_name" [] = (Ok n, [])
      /\ lib_call w "transformers.AutoModelForCausalLM.from_pretrained" [n]
           [ ("quantization_config", l_bnb_config l);
             ("device_map", VStr "auto") ]
         = Ok (l_model l).
Proof.
  unfold finetune_l144_setup. intros HB Hb HA H Hq.
  do 9 (apply bind_inv_ok in H as (? & ? & _ & H)).
  apply bind_inv_ok in H as (t & tr10 & _ & H).
  destruct t as [[[[model_args data_args] training_args] quant_args] qlora_args].
  apply bind_inv_ok in H as (fb & tr11 & Hfb & H).
  apply bind_inv_ok in H as (bnb & tr12 & Hbnb & H).
  do 2 (apply bind_inv_ok in H as (? & ? & _ & H)).
  apply bind_inv_ok in H as (am & tr15 & Ham & H).
  apply bind_inv_ok in H as (fp & tr16 & Hfp & H).
  apply bind_inv_ok in H as (n & tr17 & Hn & H).
  apply bind_inv_ok in H as (model & tr18 & Hmodel & H).
  do 6 (apply bind_inv_ok in H as (? & ? & _ & H)).
  injection H as <- _. cbn [l_quant_args l_bnb_config l_model_args l_model] in *.
  subst quant_args.
  rewrite (global_bound _ _ _ _ Hb) in Hfb. injection Hfb as <- <-.
  rewrite (global_bound _ _ _ _ HA) in Ham. injection Ham as <- <-.
  rewrite getattr_ext in Hfp. injection Hfp as <- <-.
  rewrite call_bnb in Hbnb.
  change (bind_args ["quant_args"] [] [("quant_args", quant_obj q)])
    with (vs <- ret [] ;; ret (quant_obj q :: vs)) in Hbnb.
  unfold bind at 1 2 in Hbnb. unfold ret at 1 2 in Hbnb.
  unfold bind at 1 in Hbnb. unfold log at 1 in Hbnb.
  cbn [nth] in Hbnb.
  rewrite (build_bnb_config_run w g d q _ HB) in Hbnb.
  injection Hbnb as <- _.
  split; [reflexivity|].
  exists n. split.
  - now apply (getattr_pure _ _ _ _ _ Hn).
  - rewrite call_ext in Hmodel.
    unfold bind at 1 in Hmodel. unfold log at 1 in Hmodel.
    change (lib_model_call _ _ _) with (@None (M value)) in Hmodel.
    unfold lift in Hmodel. injection Hmodel as Hm _. exact Hm.
Qed.

Lemma setup_loads_model_with_built_config_witness :
  l_bnb_config sample_locals
  = VObj "transformers.BitsAndBytesConfig"
      [ ("load_in_4bit", load_in_4bit default_quant);
        ("bnb_4bit_quant_type", bnb_4bit_compute_dtype default_quant);
        ("bnb_4bit_compute_dtype", bnb_4bit_compute_dtype default_quant) ]
  /\ exists n,
      getattr (l_model_args sample_locals) "model_name" [] = (Ok n, [])
      /\ lib_call sample_world
           "transformers.AutoModelForCausalLM.from_pretrained" [n]
           [ ("quantization_config", l_bnb_config sample_locals);
             ("device_map", VStr "auto") ]
         = Ok (l_model sample_locals).
Proof.
  apply (setup_loads_model_with_built_config sample_world sample_globals 0 []
           sample_locals (snd sample_setup) default_quant).
  - vm_compute. reflexivity.
  - vm_compute. reflexivity.
  - vm_compute. reflexivity.
  - exact sample_setup_run.
  - vm_compute. reflexivity.
Defined.

(** ** The save helper on a trainer whose [should_save] is a method *)

Lemma lib_model_method_noargs w self name kwargs :
  (forall kvs, self <> VDict kvs) ->
  lib_model_method w self name [] kwargs = None.
Proof.
  intros Hd. unfold lib_model_method.
  repeat match goal with
         | |- context [match ?x with _ => _ end] => destruct x
         end; try reflexivity.
  all: now destruct (Hd entries).
Qed.

Lemma lib_model_method_kwargs w self name args kv kwargs :
  lib_model_method w self name args (kv :: kwargs) = None.
Proof.
  unfold lib_model_method.
  repeat match goal with
         | |- context [match ?x with _ => _ end] => destruct x
         end; reflexivity.
Qed.

Lemma has_method_not_dict name v :
  has_method name v = true -> forall kvs, v <> VDict kvs.
Proof. destruct v; simpl; intros H kvs; congruence. Qed.

Lemma getattr_method name v tr :
  has_method name v = true -> getattr v name tr = (Ok (VAttr v name), tr).
Proof.
  destruct v; simpl; try discriminate; try reflexivity.
  destruct (assoc name attrs); [discriminate|reflexivity].
Qed.

Lemma call_method w g d name v tr :
  has_method name v = true ->
  call w g d (VAttr v name) [] [] tr
  = (lib_method w v name [] [], (tr ++ [EvMethod name])%list).
Proof.
  intros H. rewrite call_attr.
  rewrite (lib_model_method_noargs w v name [] (has_method_not_dict _ _ H)).
  reflexivity.
Qed.

Lemma assoc_set_fresh {A} k (v : A) l :
  ~ In k (map fst l) -> assoc_set k v l = (l ++ [(k, v)])%list.
Proof.
  induction l as [|[k' v'] l IH]; simpl; [reflexivity|]. intros Hn.
  destruct (String.eqb k k') eqn:E.
  - apply String.eqb_eq in E as ->. destruct Hn. now left.
  - rewrite IH; [reflexivity|]. intros Hin. apply Hn. now right.
Qed.

Lemma fold_assoc_set_nodup (f : value -> value) kvs : forall acc,
  List.NoDup (map fst acc ++ map fst kvs) ->
  fold_left (fun acc kv => assoc_set (fst kv) (f (snd kv)) acc) kvs acc
  = (acc ++ map (fun kv => (fst kv, f (snd kv))) kvs)%list.
Proof.
  induction kvs as [|[k v] kvs IH]; intros acc Hnd; simpl.
  - now rewrite app_nil_r.
  - assert (Hk : ~ In k (map fst acc)).
    { intros Hin. apply List.NoDup_remove_2 in Hnd. apply Hnd.
      apply in_or_app. now left. }
    rewrite (assoc_set_fresh _ _ _ Hk), IH.
    + now rewrite <- app_assoc.
    + rewrite map_app. simpl. rewrite <- app_assoc. exact Hnd.
Qed.

Lemma cpu_entries_cons c item rest acc tr :
  cpu_entries c (item :: rest) acc tr
  = (kv <- unpack2 item ;;
     cpu_ <- getattr (snd kv) "cpu" ;;
     r <- c cpu_ [] [] ;;
     match fst kv with
     | VStr k => cpu_entries c rest (assoc_set k r acc)
     | _ => raise (TypeError "state dict key is not a string")
     end) tr.
Proof.
  simpl. apply bind_cong. intros [key value_] tr1. reflexivity.
Qed.

Lemma unpack2_item k v tr :
  unpack2 (item_of (k, v)) tr = (Ok (VStr k, v), tr).
Proof. reflexivity. Qed.

(** The comprehension of line 113 on the items of a state dictionary whose
    values answer [cpu()]. *)
Lemma cpu_entries_run w g d (cpu : value -> value) kvs : forall acc tr,
  (forall k v, In (k, v) kvs ->
     has_method "cpu" v = true /\ lib_method w v "cpu" [] [] = Ok (cpu v)) ->
  cpu_entries (call w g d) (map item_of kvs) acc tr
  = (Ok (fold_left (fun acc kv => assoc_set (fst kv) (cpu (snd kv)) acc)
           kvs acc),
     (tr ++ repeat (EvMethod "cpu") (length kvs))%list).
Proof.
  induction kvs as [|[k v] kvs IH]; intros acc tr Hcpu.
  - simpl. unfold ret. now rewrite app_nil_r.
  - destruct (Hcpu k v (or_introl eq_refl)) as [Hm Hc].
    change (map item_of ((k, v) :: kvs))
      with (item_of (k, v) :: map item_of kvs).
    rewrite cpu_entries_cons.
    rewrite (bind_ok _ _ _ _ _ (unpack2_item k v tr)). cbn [fst snd].
    rewrite (bind_ok _ _ _ _ _ (getattr_method "cpu" v tr Hm)).
    unfold bind at 1. rewrite (call_method w g d "cpu" v tr Hm), Hc.
    cbv beta iota.
    rewrite IH by (intros k' v' Hin; apply (Hcpu k' v'); now right).
    simpl. now rewrite <- app_assoc.
Qed.

(** For a trainer whose [should_save] is a method that answers with a false
    value, [safe_save_model_for_hf_trainer] fetches the state dictionary,
    asks [should_save()], and returns [None]: the state dictionary is not
    walked and [_save] is not called. *)
Theorem safe_save_skips_when_not_saving w g d tr cls model args output_dir
    sd cond :
  has_method "state_dict" model = true ->
  has_method "should_save" args = true ->
  lib_method w model "state_dict" [] [] = Ok sd ->
  lib_method w args "should_save" [] [] = Ok cond ->
  truthy cond = false ->
  safe_save_model_for_hf_trainer (call w g d) (duck_trainer cls model args)
    output_dir tr
  = (Ok VNone, (tr ++ [EvMethod "state_dict"; EvMethod "should_save"])%list).
Proof.
  intros Hm Ha Hsd Hss Hc. unfold safe_save_model_for_hf_trainer.
  change (getattr (duck_trainer cls model args) "model") with (ret model).
  rewrite bind_ret.
  rewrite (bind_ok _ _ _ _ _ (getattr_method _ _ _ Hm)).
  unfold bind at 1. rewrite (call_method w g d _ _ _ Hm), Hsd.
  change (getattr (duck_trainer cls model args) "args") with (ret args).
  rewrite bind_ret.
  rewrite (bind_ok _ _ _ _ _ (getattr_method _ _ _ Ha)).
  unfold bind at 1. rewrite (call_method w g d _ _ _ Ha), Hss, Hc.
  unfold ret. now rewrite <- app_assoc.
Qed.

Lemma safe_save_skips_when_not_saving_witness :
  safe_save_model_for_hf_trainer
    (call (mock_world false) sample_globals 1) mock_trainer (VStr "out") []
  = (Ok VNone, ([] ++ [EvMethod "state_dict"; EvMethod "should_save"])%list).
Proof.
  apply (safe_save_skips_when_not_saving (mock_world false) sample_globals 1
           [] "MockTrainer" (VObj "Module" []) (VObj "Args" []) (VStr "out")
           (VDict mock_state_dict) (VBool false)); reflexivity.
Defined.

(** For a trainer whose [should_save] is a method that answers with a true
    value and whose state dictionary has distinct keys and values that
    answer [cpu()], [safe_save_model_for_hf_trainer] calls [cpu()] once on
    every value, in order, and then calls [_save] once, with the output
    directory and a state dictionary that has the same keys in the same
    order, each with the host copy of its value. It returns [None] if
    [_save] returns and raises what [_save] raises. An empty state
    dictionary is saved as an empty one. *)
Theorem safe_save_saves_cpu_copies w g d tr cls model args output_dir
    kvs cond (cpu : value -> value) :
  has_method "state_dict" model = true ->
  has_method "should_save" args = true ->
  lib_method w model "state_dict" [] [] = Ok (VDict kvs) ->
  lib_method w args "should_save" [] [] = Ok cond ->
  truthy cond = true ->
  List.NoDup (map fst kvs) ->
  (forall k v, In (k, v) kvs ->
     has_method "cpu" v = true /\ lib_method w v "cpu" [] [] = Ok (cpu v)) ->
  safe_save_model_for_hf_trainer (call w g d) (duck_trainer cls model args)
    output_dir tr
  = (match lib_method w (duck_trainer cls model args) "_save" [output_dir]
             [("state_dict",
               VDict (map (fun kv => (fst kv, cpu (snd kv))) kvs))] with
     | Ok _ => Ok VNone
     | Raise e => Raise e
     end,
     (tr ++ [EvMethod "state_dict"; EvMethod "should_save"; EvMethod "items"]
         ++ repeat (EvMethod "cpu") (length kvs) ++ [EvMethod "_save"])%list).
Proof.
  intros Hm Ha Hsd Hss Hc Hnd Hcpu. unfold safe_save_model_for_hf_trainer.
  change (getattr (duck_trainer cls model args) "model") with (ret model).
  rewrite bind_ret.
  rewrite (bind_ok _ _ _ _ _ (getattr_method _ _ _ Hm)).
  unfold bind at 1. rewrite (call_method w g d _ _ _ Hm), Hsd.
  change (getattr (duck_trainer cls model args) "args") with (ret args).
  rewrite bind_ret.
  rewrite (bind_ok _ _ _ _ _ (getattr_method _ _ _ Ha)).
  unfold bind at 1. rewrite (call_method w g d _ _ _ Ha), Hss, Hc.
  change (getattr (VDict kvs) "items") with (ret (VAttr (VDict kvs) "items")).
  rewrite bind_ret.
  unfold bind at 1. rewrite call_attr.
  change (lib_model_method w (VDict kvs) "items" [] [])
    with (Some (ret (VList (map item_of kvs)))).
  unfold bind at 1. unfold log at 1. unfold ret at 1.
  change (iterate (VList (map item_of kvs))) with (ret (map item_of kvs)).
  rewrite bind_ret.
  unfold bind at 1. rewrite (cpu_entries_run w g d cpu kvs [] _ Hcpu).
  rewrite (fold_assoc_set_nodup cpu kvs []) by exact Hnd.
  change (getattr (duck_trainer cls model args) "_save")
    with (ret (VAttr (duck_trainer cls model args) "_save")).
  rewrite bind_ret.
  unfold bind at 1. rewrite call_attr.
  rewrite lib_model_method_kwargs.
  unfold bind at 1. unfold log at 1. unfold lift.
  destruct (lib_method w _ "_save" _ _); cbv beta iota;
    rewrite <- !app_assoc; reflexivity.
Qed.

Lemma safe_save_saves_cpu_copies_witness :
  safe_save_model_for_hf_trainer
    (call (mock_world true) sample_globals 1) mock_trainer (VStr "out") []
  = (match lib_method (mock_world true) mock_trainer "_save" [VStr "out"]
             [("state_dict",
               VDict (map (fun kv => (fst kv, mock_tensor "cpu"))
                        mock_state_dict))] with
     | Ok _ => Ok VNone
     | Raise e => Raise e
     end,
     ([] ++ [EvMethod "state_dict"; EvMethod "should_save"; EvMethod "items"]
         ++ repeat (EvMethod "cpu") (length mock_state_dict)
         ++ [EvMethod "_save"])%list).
Proof.
  apply (safe_save_saves_cpu_copies (mock_world true) sample_globals 1 []
           "MockTrainer" (VObj "Module" []) (VObj "Args" []) (VStr "out")
           mock_state_dict (VBool true) (fun _ => mock_tensor "cpu"));
    try reflexivity.
  - repeat constructor; simpl; intuition discriminate.
  - intros k v [[= <- <-]|[[= <- <-]|[]]]; split; reflexivity.
Defined.

(** ** No namespace of the script defines the training-arguments class *)

Lemma frames_keeps_missing names s :
  frames names s ->
  ~ In "ModelTrainingArguments" names -> ~ In "Optional" names ->
  keeps_missing s.
Proof.
  intros Hs H1 H2 g tr g' tr' [Hm Ho] Hrun. split.
  - now rewrite (Hs _ _ _ _ _ Hrun H1).
  - now rewrite (Hs _ _ _ _ _ Hrun H2).
Qed.

Lemma typing_import_keeps_missing w :
  keeps_missing (from_import w "typing" ["Optional"; "Dict"]).
Proof.
  intros g tr g' tr' [Hm _] Hrun.
  destruct (from_import_cases w "typing" ["Optional"; "Dict"] g tr)
    as [(q & _ & _ & Hr)|[_ Hr]]; rewrite Hr in Hrun; [discriminate|].
  injection Hrun as <- _. unfold bind_names, qualified. cbn [fold_left].
  split.
  - now rewrite !lookup_insert_ne by discriminate.
  - right. rewrite lookup_insert_ne by discriminate. apply lookup_insert_eq.
Qed.

Lemma class_ModelTrainingArguments_keeps_missing w d :
  keeps_missing (class_ModelTrainingArguments w d).
Proof.
  intros g tr g' tr' [Hm [Ho|Ho]] Hrun; exfalso.
  - unfold class_ModelTrainingArguments, class_def in Hrun.
    apply bind_inv_ok in Hrun as (dec & tr1 & _ & Hrun).
    apply bind_inv_ok in Hrun as (bs & tr2 & _ & Hrun).
    apply bind_inv_ok in Hrun as (ns & tr3 & Hbody & _).
    unfold body_ModelTrainingArguments in Hbody.
    apply bind_inv_ok in Hbody as (v & tr4 & _ & Hbody).
    apply bind_inv_ok in Hbody as (o & tr5 & Hname & _).
    unfold name_ in Hname. simpl assoc in Hname.
    unfold global_ in Hname. rewrite Ho in Hname. discriminate.
  - now apply (ModelTrainingArguments_class_raises w d g tr g' tr').
Qed.

Lemma module_stmts_keep_missing w d :
  Forall keeps_missing (module_stmts w d).
Proof.
  unfold module_stmts, import_stmts, def_stmts, class_ModelArguments,
    class_DataArguments, class_QuanitzationArguments, class_QloraArguments.
  repeat (apply Forall_cons; split;
    [ first
        [ apply typing_import_keeps_missing
        | apply class_ModelTrainingArguments_keeps_missing
        | eapply frames_keeps_missing;
          [ first [ apply frames_from_import | apply frames_import
                  | apply frames_stmt_l23 | apply frames_stmt_l24
                  | apply frames_class_def | apply frames_def
                  | apply frames_stmt_l169 ]
          | simpl; intuition discriminate
          | simpl; intuition discriminate ] ] |]).
  apply Forall_nil_2.
Qed.

Lemma exec_keeps_missing stmts :
  Forall keeps_missing stmts -> keeps_missing (exec stmts).
Proof.
  induction 1 as [|s stmts Hs _ IH]; intros g tr g' tr' Hg; simpl.
  - now intros [= <- _].
  - intros H. apply bind_inv_ok in H as (g1 & tr1 & H1 & H).
    eapply IH; [|exact H]. eapply Hs; eauto.
Qed.

Lemma initial_globals_class_missing name : class_missing (initial_globals name).
Proof.
  unfold class_missing, initial_globals.
  rewrite !lookup_insert_ne by discriminate. rewrite lookup_empty. auto.
Qed.

(** Whatever statements of the script have run, in any selection and order
    from the initial globals, [ModelTrainingArguments] is not bound when
    they are done: the class statement of lines 48-60 never completes. A
    call of either definition of [finetune] in such a namespace therefore
    stops with a [NameError] while it builds the tuple for the argument
    parser, before anything is called. *)
Theorem script_never_defines_training_arguments w d stmts name tr g' tr'
    (c : value -> list value -> list (string * value) -> M value) tr0 :
  (forall s, In s stmts -> In s (module_stmts w d)) ->
  exec stmts (initial_globals name) tr = (Ok g', tr') ->
  g' !! "ModelTrainingArguments" = None
  /\ (exists n, finetune_l120 g' c tr0 = (Raise (NameError n), tr0))
  /\ (exists n, finetune_l144 w g' c tr0 = (Raise (NameError n), tr0)).
Proof.
  intros Hsub Hrun.
  assert (Hm : g' !! "ModelTrainingArguments" = None).
  { refine (proj1 (exec_keeps_missing stmts _ _ _ _ _
                     (initial_globals_class_missing name) Hrun)).
    apply Forall_forall. intros s Hs.
    apply list_elem_of_In, Hsub in Hs.
    pose proof (module_stmts_keep_missing w d) as H.
    rewrite Forall_forall in H. apply H. now apply list_elem_of_In. }
  split; [exact Hm|]. split.
  - unfold finetune_l120, bind, global_. rewrite Hm.
    destruct (g' !! "HfArgumentParser"), (g' !! "ModelArguments"),
      (g' !! "DataArguments"); cbn [is_builtin existsb]; eauto.
  - unfold finetune_l144, finetune_l144_setup, bind, global_. rewrite Hm.
    destruct (g' !! "HfArgumentParser"), (g' !! "ModelArguments"),
      (g' !! "DataArguments"); cbn [is_builtin existsb]; eauto.
Qed.

Lemma sample_plain_run_ok :
  exec (repaired_stmts sample_world 10) (initial_globals "__main__") []
  = (Ok sample_after_defs_plain, snd sample_plain_run).
Proof.
  assert (H : is_ok (fst sample_plain_run) = true) by (vm_compute; reflexivity).
  unfold sample_after_defs_plain. fold sample_plain_run.
  destruct sample_plain_run as [[g|e] tr]; [reflexivity|discriminate].
Qed.

Lemma script_never_defines_training_arguments_witness :
  sample_after_defs_plain !! "ModelTrainingArguments" = None
  /\ (exists n,
        finetune_l120 sample_after_defs_plain
          (call sample_world sample_after_defs_plain 1) []
        = (Raise (NameError n), []))
  /\ (exists n,
        finetune_l144 sample_world sample_after_defs_plain
          (call sample_world sample_after_defs_plain 1) []
        = (Raise (NameError n), [])).
Proof.
  apply (script_never_defines_training_arguments sample_world 10
           (repaired_stmts sample_world 10) "__main__" []
           sample_after_defs_plain (snd sample_plain_run)).
  - exact (repaired_stmts_in_module sample_world 10).
  - exact sample_plain_run_ok.
Defined.

(** ** The [def] statements and the names in their signatures *)

Lemma global_resolves g n tr :
  (exists v, global_ g n tr = (Ok v, tr))
  <-> (is_Some (g !! n) \/ is_builtin n = true).
Proof.
  unfold global_. split.
  - intros [v H]. destruct (g !! n); [left; eauto|].
    destruct (is_builtin n); [now right|discriminate].
  - intros [[v H]|H].
    + rewrite H. eauto.
    + destruct (g !! n); [eauto|]. rewrite H. eauto.
Qed.

Lemma mapM_global_resolves g names tr :
  (exists vs, mapM (global_ g) names tr = (Ok vs, tr))
  <-> (forall n, In n names -> is_Some (g !! n) \/ is_builtin n = true).
Proof.
  induction names as [|x names IH]; simpl.
  - split; [intros _ n []|intros _; eexists; reflexivity].
  - split.
    + intros [vs H]. apply bind_inv_ok in H as (v & tr1 & Hv & H).
      apply bind_inv_ok in H as (vs' & tr2 & Hvs & H).
      pose proof (mapM_global_silent g [x] tr (Ok [v]) tr1) as Htr.
      simpl in Htr. rewrite (bind_ok _ _ _ _ _ Hv) in Htr.
      specialize (Htr eq_refl). subst tr1.
      apply mapM_global_silent in Hvs as Htr2. subst tr2.
      intros n [<-|Hn].
      * apply (global_resolves g x tr). eauto.
      * apply IH; eauto.
    + intros H.
      destruct (proj2 (global_resolves g x tr) (H x (or_introl eq_refl)))
        as [v Hv].
      destruct (proj2 IH (fun n Hn => H n (or_intror Hn))) as [vs Hvs].
      exists (v :: vs).
      now rewrite (bind_ok _ _ _ _ _ Hv), (bind_ok _ _ _ _ _ Hvs).
Qed.

Lemma def_completes name fid anns g tr :
  (exists g', def_ name fid anns g tr = (Ok g', tr))
  <-> (forall n, In n anns -> is_Some (g !! n) \/ is_builtin n = true).
Proof.
  rewrite <- (mapM_global_resolves g anns tr). unfold def_. split.
  - intros [g' H]. apply bind_inv_ok in H as (vs & tr1 & Hvs & _).
    apply mapM_global_silent in Hvs as Htr. subst tr1. eauto.
  - intros [vs Hvs]. eexists. now rewrite (bind_ok _ _ _ _ _ Hvs).
Qed.

(** The six [def] statements evaluate the annotations of their signatures
    when they run. From any namespace they complete exactly when [Trainer],
    [PreTrainedTokenizer], [Dict], [BitsAndBytesConfig] and [LoraConfig] are
    bound, and they call nothing. *)
Theorem def_stmts_need_their_annotations g tr :
  (exists g', exec def_stmts g tr = (Ok g', tr))
  <-> (forall n,
         In n [ "Trainer"; "PreTrainedTokenizer"; "Dict";
                "BitsAndBytesConfig"; "LoraConfig" ] ->
         is_Some (g !! n)).
Proof.
  split.
  - intros [g' H]. unfold def_stmts in H.
    apply exec_cons_ok in H as (g1 & tr1 & H1 & H).
    apply exec_cons_ok in H as (g2 & tr2 & H2 & H).
    apply exec_cons_ok in H as (g3 & tr3 & H3 & H).
    apply exec_cons_ok in H as (g4 & tr4 & H4 & H).
    apply exec_cons_ok in H as (g5 & tr5 & H5 & _).
    pose proof (def_ok _ _ _ _ _ _ _ H1) as [E1 T1].
    pose proof (def_ok _ _ _ _ _ _ _ H2) as [E2 T2].
    pose proof (def_ok _ _ _ _ _ _ _ H3) as [E3 T3].
    pose proof (def_ok _ _ _ _ _ _ _ H4) as [E4 T4].
    pose proof (def_ok _ _ _ _ _ _ _ H5) as [E5 T5].
    subst tr1 tr2 tr3 tr4 tr5.
    pose proof (proj1 (def_completes _ _ _ _ _) (ex_intro _ _ H1)) as A1.
    pose proof (proj1 (def_completes _ _ _ _ _) (ex_intro _ _ H2)) as A2.
    pose proof (proj1 (def_completes _ _ _ _ _) (ex_intro _ _ H4)) as A4.
    pose proof (proj1 (def_completes _ _ _ _ _) (ex_intro _ _ H5)) as A5.
    intros n Hn. simpl in Hn.
    destruct Hn as [<-|[<-|[<-|[<-|[<-|[]]]]]].
    + destruct (A1 "Trainer") as [?|?]; [simpl; auto|assumption|discriminate].
    + destruct (A2 "PreTrainedTokenizer") as [Hs|?];
        [simpl; auto| |discriminate].
      now rewrite E1, lookup_insert_ne in Hs by discriminate.
    + destruct (A2 "Dict") as [Hs|?]; [simpl; auto| |discriminate].
      now rewrite E1, lookup_insert_ne in Hs by discriminate.
    + destruct (A4 "BitsAndBytesConfig") as [Hs|?];
        [simpl; auto| |discriminate].
      now rewrite E3, E2, E1, !lookup_insert_ne in Hs by discriminate.
    + destruct (A5 "LoraConfig") as [Hs|?]; [simpl; auto| |discriminate].
      now rewrite E4, E3, E2, E1, !lookup_insert_ne in Hs by discriminate.
  - intros Hall. unfold def_stmts.
    assert (Hstep : forall name fid anns g0 rest,
      (forall n, In n anns -> is_Some (g0 !! n) \/ is_builtin n = true) ->
      (exists g', exec rest (<[name := VFunc fid]> g0) tr = (Ok g', tr)) ->
      exists g', exec (def_ name fid anns :: rest) g0 tr = (Ok g', tr)).
    { intros name fid anns g0 rest Hanns [g' Hrest].
      destruct (proj2 (def_completes name fid anns g0 tr) Hanns) as [g1 H1].
      pose proof (def_ok _ _ _ _ _ _ _ H1) as [-> _].
      exists g'. now rewrite (exec_cons_run _ _ _ _ _ _ H1). }
    apply Hstep.
    { intros n [<-|[<-|[]]]; [left; apply Hall; simpl; auto|now right]. }
    apply Hstep.
    { intros n [<-|[<-|[]]]; left;
        rewrite lookup_insert_ne by discriminate; apply Hall; simpl; auto. }
    apply Hstep; [intros n []|].
    apply Hstep.
    { intros n [<-|[]]. left.
      rewrite !lookup_insert_ne by discriminate. apply Hall. simpl. auto. }
    apply Hstep.
    { intros n [<-|[]]. left.
      rewrite !lookup_insert_ne by discriminate. apply Hall. simpl. tauto. }
    apply Hstep; [intros n []|].
    eexists. reflexivity.
Qed.

Lemma def_stmts_need_their_annotations_witness :
  exists g', exec def_stmts (after_imports (initial_globals "__main__")) []
             = (Ok g', []).
Proof.
  apply (proj2 (def_stmts_need_their_annotations
                  (after_imports (initial_globals "__main__")) [])).
  intros n Hn. simpl in Hn.
  destruct Hn as [<-|[<-|[<-|[<-|[<-|[]]]]]];
    eexists; apply after_imports_lookup; unfold imported_bindings; simpl; tauto.
Defined.
